(** * The agent orchestration runtime of [gradient_agent.py]

    A shallow embedding of the session/message model, the tool
    abstraction, the backend adapter and the bounded decision loop of
    [GradientAgent], together with the request handler of
    [routes/agent.py] that drives it, and the properties the
    specification states about them. *)

From Stdlib Require Import Ascii String List Arith NArith DecimalString Lia.
From stdpp Require Import base option list strings gmap.

Set Warnings "-register-all".

Local Open Scope string_scope.
Local Open Scope list_scope.

(** ** Values decoded from model output

    [json.loads] yields Python values; the loop only ever inspects them
    through [in], subscription, [.get], equality with a [str], hashing
    and f-string formatting, so the JSON shape is all that is kept.  A
    number keeps its literal; a [dict] keeps its members in insertion
    order. *)

Inductive json : Type :=
| JNull
| JBool (b : bool)
| JNum (literal : string)
| JStr (s : string)
| JArr (items : list json)
| JObj (members : list (string * json)).

Definition is_str (key : string) (v : json) : bool :=
  match v with
  | JStr s => String.eqb s key
  | _ => false
  end.

(** [d.get(key)] on the members of a [dict]. *)
Fixpoint dict_get (key : string) (members : list (string * json)) : option json :=
  match members with
  | [] => None
  | (k, v) :: rest => if String.eqb k key then Some v else dict_get key rest
  end.

(** [key in d] *)
Definition dict_has (key : string) (members : list (string * json)) : bool :=
  match dict_get key members with
  | Some _ => true
  | None => false
  end.

(** [d[key] = v]: overwrite in place, or append a new member. *)
Fixpoint dict_set (key : string) (v : json) (members : list (string * json))
  : list (string * json) :=
  match members with
  | [] => [(key, v)]
  | (k, w) :: rest =>
      if String.eqb k key then (k, v) :: rest else (k, w) :: dict_set key v rest
  end.

(** [needle in haystack] on two [str]. *)
Definition str_contains (needle haystack : string) : bool :=
  match String.index 0 needle haystack with
  | Some _ => true
  | None => false
  end.

(** ** Exceptions

    Everything raised below derives from Python's [Exception].  The
    faults of the interpreter itself are told apart by the operation
    that failed. *)

Inductive py_fault : Type :=
| NotIterable (v : json)      (* TypeError: [key in v] on None / bool / number *)
| BadSubscript (v : json)     (* TypeError: [v[key]] with a str key on a non-dict *)
| NoAttribute (v : json)      (* AttributeError: [v.get] on a non-dict *)
| MissingKey (key : string)   (* KeyError *)
| Unhashable (v : json)       (* TypeError: a list or dict used as a dict key *)
| NotAMapping (v : json)      (* TypeError: [**v] on a non-dict *)
| MultipleValues (key : string) (* TypeError: a keyword that repeats a positional *)
| NotText (v : json)          (* TypeError: [json.loads(v)] on something that is not text *)
| RecursionLimit (container : string) (* RecursionError: [json.loads] on nesting too deep *)
| IntegerTooLong (digits : nat). (* ValueError: [json.loads] on an integer of too many digits *)

Inductive exn : Type :=
| BackendError (detail : string)    (* raised out of [_call_gradient] *)
| ExecutorError (detail : string)   (* raised by a tool's function *)
| RuntimeFault (fault : py_fault).

Inductive res (A : Type) : Type :=
| Ok (a : A)
| Raise (e : exn).
Arguments Ok {A} a.
Arguments Raise {A} e.

(** ** The Python runtime and the outside world

    Library routines the module calls but does not define. *)

(** What [json.loads] does with a text: it returns the decoded value,
    it raises [json.JSONDecodeError], or it raises something else (a
    [RecursionError], a [ValueError] that is not a decoding error). *)
Inductive decoding : Type :=
| Decoded (v : json)
| JSONDecodeError
| DecoderRaised (fault : py_fault).

Record Runtime : Type := {
  (** [json.loads] on a [str] *)
  json_loads : string -> decoding;
  (** [str.strip()]. *)
  str_strip : string -> string;
  (** the text an f-string gives to a decoded value that is not a [str] *)
  format_value : json -> string;
  (** [str(e)] for an interpreter fault *)
  fault_message : py_fault -> string
}.

(** f-string interpolation [{v}] of a decoded value. *)
Definition fmt (rt : Runtime) (v : json) : string :=
  match v with
  | JStr s => s
  | _ => format_value rt v
  end.

(** [str(e)]: a backend or executor exception carries its own text. *)
Definition exn_str (rt : Runtime) (e : exn) : string :=
  match e with
  | BackendError detail => detail
  | ExecutorError detail => detail
  | RuntimeFault f => fault_message rt f
  end.

(** ** Operations of the loop on a decoded value *)

(** [key in v] *)
Definition py_in (key : string) (v : json) : res bool :=
  match v with
  | JObj members => Ok (dict_has key members)
  | JStr s => Ok (str_contains key s)
  | JArr items => Ok (existsb (is_str key) items)
  | _ => Raise (RuntimeFault (NotIterable v))
  end.

(** [v[key]] for a [str] key *)
Definition py_getitem (v : json) (key : string) : res json :=
  match v with
  | JObj members =>
      match dict_get key members with
      | Some x => Ok x
      | None => Raise (RuntimeFault (MissingKey key))
      end
  | _ => Raise (RuntimeFault (BadSubscript v))
  end.

(** [v.get(key, default)] *)
Definition py_get (v : json) (key : string) (dflt : json) : res json :=
  match v with
  | JObj members => Ok (default dflt (dict_get key members))
  | _ => Raise (RuntimeFault (NoAttribute v))
  end.

(** ** Messages and sessions *)

Definition nl : string := String (ascii_of_nat 10) EmptyString.

(** An entry of the working list: a [dict] with the keys ["role"] and
    ["content"].  The content of a delegated message is whatever value
    the envelope carried, so it is a decoded value, not only a [str]. *)
Record wire : Type := Wire { wire_role : string; wire_content : json }.

Module Message.
Record t : Type := mk { role : string; content : string }.

Definition to_dict (self : t) : wire :=
  Wire (role self) (JStr (content self)).
End Message.

Module Session.
Record t : Type := mk {
  session_id : string;
  user_id : string;
  app_name : string;
  history : list Message.t
}.

(** [Session(session_id=..., user_id=..., app_name=...)]: the history
    starts from the default factory, an empty list. *)
Definition new (session_id user_id app_name : string) : t :=
  mk session_id user_id app_name [].

Definition add_message (role content : string) (self : t) : t :=
  mk (session_id self) (user_id self) (app_name self)
     (history self ++ [Message.mk role content]).

Definition get_messages_dict (self : t) : list wire :=
  map Message.to_dict (history self).
End Session.

Module SessionService.
Record t : Type := mk { sessions : gmap string Session.t }.

Definition init : t := mk ∅.

Definition key (app_name user_id session_id : string) : string :=
  app_name +:+ ":" +:+ user_id +:+ ":" +:+ session_id.

Definition create_session (app_name user_id session_id : string) (self : t)
  : Session.t * t :=
  let session := Session.new session_id user_id app_name in
  (session, mk (<[key app_name user_id session_id := session]> (sessions self))).

Definition get_session (app_name user_id session_id : string) (self : t)
  : option Session.t :=
  sessions self !! key app_name user_id session_id.

Definition delete_session (app_name user_id session_id : string) (self : t) : t :=
  let k := key app_name user_id session_id in
  match sessions self !! k with
  | Some _ => mk (delete k (sessions self))
  | None => self
  end.
End SessionService.

(** ** Tools *)

Module Tool.
(** [func] is the wrapped callable applied to keyword arguments: it
    returns a value or raises. *)
Record t : Type := mk {
  name : string;
  description : string;
  func : list (string * json) -> res json
}.

(** Both branches of [execute] call [func] with the keywords and hand
    back what it returns; nothing is caught here. *)
Definition execute (self : t) (kwargs : list (string * json)) : res json :=
  func self kwargs.

(** The call [tool.execute( **arguments )]: unpacking needs a mapping,
    and no keyword may repeat the positional [self]. *)
Definition call_execute (self : t) (arguments : json) : res json :=
  match arguments with
  | JObj kwargs =>
      if dict_has "self" kwargs
      then Raise (RuntimeFault (MultipleValues "self"))
      else execute self kwargs
  | _ => Raise (RuntimeFault (NotAMapping arguments))
  end.
End Tool.

(** ** The backend and the effects of a call

    Every request to the completion endpoint is recorded; the endpoint
    answers with assistant text or fails. *)

Record Call : Type := {
  call_model : string;
  call_anthropic : bool;
  call_messages : list wire;
  call_max_tokens : nat
}.

(** [Content content]: the body of the answer holds the JSON value
    [content] where [_call_gradient] reads the text of the answer, and
    [_call_gradient] returns it as it is, be it text or, say, [null].
    [Failure detail]: the request raised, for any reason
    ([raise_for_status], the transport, a body of another shape). *)
Inductive reply : Type :=
| Content (content : json)
| Failure (detail : string).

(** The ordinary answer, whose content is text. *)
Definition Completion (text : string) : reply := Content (JStr text).

Record World : Type := {
  (** the endpoint's answer to a request, given how many were made before *)
  completion : nat -> Call -> reply;
  (** [str(uuid.uuid4())] *)
  uuid4 : string;
  (** the memory context [routes/agent.py] prepends (empty when the
      Cloudflare client is absent, disabled, fails or finds nothing) *)
  cloudflare_context : string -> string
}.

Definition trace : Type := list Call.

(** Computations that may raise and that extend the trace of backend calls. *)
Definition M (A : Type) : Type := trace -> res A * trace.

Definition ret {A} (a : A) : M A := fun tr => (Ok a, tr).

Definition raise {A} (e : exn) : M A := fun tr => (Raise e, tr).

Definition bind {A B} (c : M A) (k : A -> M B) : M B :=
  fun tr =>
    match c tr with
    | (Ok a, tr') => k a tr'
    | (Raise e, tr') => (Raise e, tr')
    end.

Definition lift {A} (r : res A) : M A := fun tr => (r, tr).

(** [try: c  except Exception as e: h e] *)
Definition catch {A} (c : M A) (h : exn -> M A) : M A :=
  fun tr =>
    match c tr with
    | (Ok a, tr') => (Ok a, tr')
    | (Raise e, tr') => h e tr'
    end.

Notation "'do' x <- c ; k" := (bind c (fun x => k))
  (at level 10, x name, c at level 100, k at level 200,
   format "'[v' 'do'  x  <-  c ; '/' k ']'").

(** ** Agents *)

(** [s.replace(old, new)] for a non-empty [old]: leftmost occurrences,
    not overlapping. *)
Fixpoint str_replace_from (old new : string) (skip : nat) (s : string) : string :=
  match s with
  | EmptyString => EmptyString
  | String c rest =>
      match skip with
      | S skip' => str_replace_from old new skip' rest
      | O =>
          if String.prefix old s
          then new +:+ str_replace_from old new (String.length old - 1) rest
          else String c (str_replace_from old new 0 rest)
      end
  end.

Definition str_replace (old new s : string) : string :=
  str_replace_from old new 0 s.

Module GradientAgent.
Inductive t : Type := mk {
  name : string;
  model : string;
  description : string;
  instruction : string;
  tools : list Tool.t;
  sub_agents : list t;
  is_anthropic : bool;
  tools_map : gmap string Tool.t
}.

(** [{tool.name: tool for tool in tools}]: a later tool replaces an
    earlier one of the same name. *)
Definition build_tools_map (tools : list Tool.t) : gmap string Tool.t :=
  foldl (fun m tool => <[Tool.name tool := tool]> m) ∅ tools.

(** [__init__], without the lookup of the API key and URL in the
    process environment. *)
Definition init (name model description instruction : string)
    (tools : list Tool.t) (sub_agents : list t) : t :=
  let anthropic := String.prefix "anthropic-" model || String.prefix "claude-" model in
  let model' :=
    if anthropic then
      if str_contains "3.7" model || str_contains "3-7" model
      then "claude-3-7-sonnet-20241022"
      else str_replace "anthropic-" "" model
    else model in
  mk name model' description instruction tools sub_agents anthropic
     (build_tools_map tools).

Definition tool_line (tool : Tool.t) : string :=
  "- " +:+ Tool.name tool +:+ ": " +:+ Tool.description tool +:+ nl.

Definition agent_line (agent : t) : string :=
  "- " +:+ name agent +:+ ": " +:+ description agent +:+ nl.

(** The accumulation [prompt += ...] is a left fold over the list. *)
Definition _build_system_prompt (self : t) : string :=
  let prompt := instruction self +:+ nl +:+ nl in
  let prompt :=
    match tools self with
    | [] => prompt
    | _ =>
        let prompt := prompt +:+ "AVAILABLE TOOLS:" +:+ nl in
        let prompt := foldl (fun p tool => p +:+ tool_line tool) prompt (tools self) in
        prompt +:+ nl
    end in
  let prompt :=
    match sub_agents self with
    | [] => prompt
    | _ =>
        let prompt := prompt +:+ "AVAILABLE SUB-AGENTS:" +:+ nl in
        let prompt := foldl (fun p agent => p +:+ agent_line agent) prompt (sub_agents self) in
        prompt +:+ nl
    end in
  prompt.

Section WithEnvironment.
Variable rt : Runtime.
Variable world : World.

(** One request to the endpoint.  The request body is fixed by the
    agent's model, its API variant, the messages and [max_tokens];
    any exception inside is logged and raised again. *)
Definition _call_gradient (self : t) (messages : list wire) (max_tokens : nat)
  : M json :=
  fun tr =>
    let call := Build_Call (model self) (is_anthropic self) messages max_tokens in
    match completion world (length tr) call with
    | Content content => (Ok content, tr ++ [call])
    | Failure detail => (Raise (BackendError detail), tr ++ [call])
    end.

(** [tool_name in self.tools_map]: the key is hashed first. *)
Definition tools_map_lookup (self : t) (tool_name : json) : res (option Tool.t) :=
  match tool_name with
  | JStr s => Ok (tools_map self !! s)
  | JArr _ | JObj _ => Raise (RuntimeFault (Unhashable tool_name))
  | _ => Ok None
  end.

Definition _handle_tool_call (self : t) (tool_name arguments : json) : M string :=
  do found <- lift (tools_map_lookup self tool_name);
  match found with
  | None => ret ("Error: Tool '" +:+ fmt rt tool_name +:+ "' not found")
  | Some tool =>
      catch
        (do result <- lift (Tool.call_execute tool arguments);
         ret (fmt rt result))
        (fun e => ret ("Error executing tool: " +:+ exn_str rt e))
  end.

Definition max_iterations : nat := 10.

Definition user_turn (content : json) : wire := Wire "user" content.
Definition assistant_turn (response : string) : wire := Wire "assistant" (JStr response).

Section Loop.
(** The loop of an agent, given how it delegates. *)
Variable self : t.
Variable delegate : json -> json -> M string.

(** [while iteration < max_iterations], by the iterations left.  Of
    what [json.loads] raises only [json.JSONDecodeError] is handled: the
    [TypeError] for a response that is not text, and whatever else the
    decoder raises, leave the loop like the faults of the dispatch. *)
Fixpoint loop (remaining : nat) (messages : list wire) : M string :=
  match remaining with
  | O => ret "Error: Maximum iterations reached"
  | S remaining' =>
      do content <- _call_gradient self messages 2000;
      match content with
      | JStr response =>
          match json_loads rt response with
          | JSONDecodeError => ret response
          | DecoderRaised fault => raise (RuntimeFault fault)
          | Decoded response_data =>
              do has_tool <- lift (py_in "tool" response_data);
              if has_tool then
                do tool_name <- lift (py_getitem response_data "tool");
                do arguments <- lift (py_get response_data "arguments" (JObj []));
                do tool_result <- _handle_tool_call self tool_name arguments;
                loop remaining'
                  (messages ++ [assistant_turn response;
                                user_turn (JStr ("Tool result: " +:+ tool_result))])
              else
                do has_agent <- lift (py_in "agent" response_data);
                if has_agent then
                  do agent_name <- lift (py_getitem response_data "agent");
                  do agent_message <- lift (py_get response_data "message" (JStr ""));
                  do agent_result <- delegate agent_name agent_message;
                  loop remaining'
                    (messages ++ [assistant_turn response;
                                  user_turn (JStr ("Sub-agent result: " +:+ agent_result))])
                else ret response
          end
      | _ => raise (RuntimeFault (NotText content))
      end
  end.

Definition seed (message : json) (session : Session.t) : list wire :=
  [Wire "system" (JStr (_build_system_prompt self))]
    ++ Session.get_messages_dict session
    ++ [user_turn message].
End Loop.

(** [a.name == agent_name] *)
Definition name_is (agent_name : json) (a : t) : bool := is_str (name a) agent_name.

(** [_process_message], with the delegation it performs on its
    sub-agents written as a search through them. *)
Fixpoint _process_message (self : t) (message : json) (session : Session.t)
  {struct self} : M string :=
  let delegate := fun agent_name agent_message =>
    (fix first_match (agents : list t) : M string :=
       match agents with
       | [] => ret ("Error: Sub-agent '" +:+ fmt rt agent_name +:+ "' not found")
       | a :: rest =>
           if name_is agent_name a
           then catch (_process_message a agent_message session)
                      (fun e => ret ("Error delegating to sub-agent: " +:+ exn_str rt e))
           else first_match rest
       end) (sub_agents self) in
  loop self delegate max_iterations (seed self message session).

Definition _handle_agent_delegation (self : t) (agent_name message : json)
    (session : Session.t) : M string :=
  match find (name_is agent_name) (sub_agents self) with
  | None => ret ("Error: Sub-agent '" +:+ fmt rt agent_name +:+ "' not found")
  | Some sub_agent =>
      catch (_process_message sub_agent message session)
            (fun e => ret ("Error delegating to sub-agent: " +:+ exn_str rt e))
  end.

(** The text of a new message: [None] when it has no ["content"] with
    ["parts"]; a part is [Some text] when it has a ["text"]. *)
Definition extract_text (new_message : option (list (option string))) : string :=
  let message_text :=
    match new_message with
    | Some parts =>
        foldl (fun acc part =>
                 match part with
                 | Some text => acc +:+ text +:+ " "
                 | None => acc
                 end) "" parts
    | None => ""
    end in
  str_strip rt message_text.

(** The one event [run_async] yields: the texts of its parts. *)
Record ResponseEvent : Type := { event_parts : list string }.

(** [run_async]: the events yielded, and the session object local to
    the call as it stands when the generator is exhausted. *)
Definition run_async (self : t) (user_id session_id : string)
    (new_message : option (list (option string)))
  : M (list ResponseEvent * Session.t) :=
  let message_text := extract_text new_message in
  let session := Session.new session_id user_id (name self) in
  let session := Session.add_message "user" message_text session in
  do response_text <- _process_message self (JStr message_text) session;
  let session := Session.add_message "assistant" response_text session in
  ret ([{| event_parts := [response_text] |}], session).
End WithEnvironment.
End GradientAgent.

Module InMemoryRunner.
Record t : Type := mk {
  agent : GradientAgent.t;
  app_name : string;
  session_service : SessionService.t
}.

Definition init (agent : GradientAgent.t) (app_name : string) : t :=
  mk agent app_name SessionService.init.

Definition run_async (rt : Runtime) (world : World) (self : t)
    (user_id session_id : string) (new_message : option (list (option string)))
  : M (list GradientAgent.ResponseEvent) :=
  do out <- GradientAgent.run_async rt world (agent self) user_id session_id new_message;
  ret (fst out).
End InMemoryRunner.

(** ** The request handler of [routes/agent.py] *)

Module Route.
Record AgentRequest : Type := {
  message : string;
  (** each context part by its ["content"], if it has one *)
  context_parts : option (list (option string));
  session_id : option string
}.

Record AgentResponse : Type := {
  response : string;
  response_session_id : string;
  event_count : nat
}.

Inductive outcome : Type :=
| Returned (r : AgentResponse)
| HTTPException (status_code : nat) (detail : string).

(** [sep.join(parts)] *)
Fixpoint join (sep : string) (parts : list string) : string :=
  match parts with
  | [] => ""
  | [p] => p
  | p :: rest => p +:+ sep +:+ join sep rest
  end.

(** [a or b] on two [str] *)
Definition str_or (a b : string) : string :=
  match a with
  | EmptyString => b
  | _ => a
  end.

Section WithEnvironment.
Variable rt : Runtime.
Variable world : World.

(** The module-level [arrow_runner] is the state of the handler; the
    handler returns it as it leaves it. *)
Definition process_agent_request (arrow_runner : option InMemoryRunner.t)
    (request : AgentRequest) (tr : trace)
  : outcome * option InMemoryRunner.t * trace :=
  match arrow_runner with
  | None => (HTTPException 503 "Arrow backend not available", None, tr)
  | Some runner =>
      let session_id := str_or (default "" (session_id request)) (uuid4 world) in
      let user_id := "default_user" in
      let service := InMemoryRunner.session_service runner in
      let app := InMemoryRunner.app_name runner in
      let service :=
        match SessionService.get_session app user_id session_id service with
        | Some _ => service
        | None => snd (SessionService.create_session app user_id session_id service)
        end in
      let runner := InMemoryRunner.mk (InMemoryRunner.agent runner) app service in
      let message_parts :=
        message request
          :: map (default "") (default [] (context_parts request)) in
      let combined_message := join " " message_parts in
      let combined_message :=
        cloudflare_context world (message request) +:+ combined_message in
      let new_message := Some [Some combined_message] in
      match InMemoryRunner.run_async rt world runner user_id session_id new_message tr with
      | (Ok events, tr') =>
          let response_text :=
            foldl (fun acc event =>
                     foldl (fun acc text => acc +:+ text) acc
                           (GradientAgent.event_parts event))
                  "" events in
          (Returned {| response := str_or response_text "No response generated";
                       response_session_id := session_id;
                       event_count := length events |},
           Some runner, tr')
      | (Raise e, tr') => (HTTPException 500 (exn_str rt e), Some runner, tr')
      end
  end.
End WithEnvironment.
End Route.

(** ** A reference runtime

    An executable instance of [Runtime] on byte strings, for running the
    definitions above on concrete conversations: the JSON grammar that
    [json.loads] accepts, [str.strip] on ASCII white space, and the
    renderings of CPython 3.12. *)

Module CPython.
Local Open Scope N_scope.

Definition dquote : ascii := ascii_of_nat 34.
Definition backslash : ascii := ascii_of_nat 92.

Definition code (c : ascii) : N := N_of_ascii c.

Definition between (lo hi : N) (c : ascii) : bool :=
  (lo <=? code c) && (code c <=? hi).

(** [str.isspace] on ASCII *)
Definition is_space (c : ascii) : bool := between 9 13 c || between 28 32 c.

Fixpoint lstrip (s : string) : string :=
  match s with
  | String c rest => if is_space c then lstrip rest else s
  | EmptyString => EmptyString
  end.

Definition strip (s : string) : string :=
  String.rev (lstrip (String.rev (lstrip s))).

(** *** Decoding *)

Definition is_json_ws (c : ascii) : bool :=
  (code c =? 32) || (code c =? 9) || (code c =? 10) || (code c =? 13).

Fixpoint skip_ws (s : string) : string :=
  match s with
  | String c rest => if is_json_ws c then skip_ws rest else s
  | EmptyString => EmptyString
  end.

Definition is_digit (c : ascii) : bool := between 48 57 c.

(** the longest run of digits at the head, and what follows it *)
Fixpoint take_digits (s : string) : string * string :=
  match s with
  | String c rest =>
      if is_digit c
      then let '(ds, r) := take_digits rest in (String c ds, r)
      else (EmptyString, s)
  | EmptyString => (EmptyString, EmptyString)
  end.

Definition strip_prefix (p s : string) : option string :=
  if String.prefix p s
  then Some (String.substring (String.length p) (String.length s - String.length p)%nat s)
  else None.

(** a number literal at the head: an optional minus, an integer part
    without a leading zero, then an optional fraction and an optional
    exponent, each kept only if it has digits *)
Definition scan_number (s : string) : option (string * string) :=
  let '(sign, s1) :=
    match s with
    | String c rest => if Ascii.eqb c "-" then ("-", rest) else ("", s)
    | EmptyString => ("", s)
    end in
  let integer :=
    match s1 with
    | String c rest =>
        if Ascii.eqb c "0" then Some ("0", rest)
        else if is_digit c then Some (take_digits s1)
        else None
    | EmptyString => None
    end in
  match integer with
  | None => None
  | Some (int_part, s2) =>
      let '(frac, s3) :=
        match s2 with
        | String c rest =>
            if Ascii.eqb c "." then
              match take_digits rest with
              | (EmptyString, _) => ("", s2)
              | (ds, r) => ("." +:+ ds, r)
              end
            else ("", s2)
        | EmptyString => ("", s2)
        end in
      let '(expo, s4) :=
        match s3 with
        | String e rest =>
            if Ascii.eqb e "e" || Ascii.eqb e "E" then
              let '(esign, r1) :=
                match rest with
                | String c r =>
                    if Ascii.eqb c "-" || Ascii.eqb c "+"
                    then (String c EmptyString, r) else ("", rest)
                | EmptyString => ("", rest)
                end in
              match take_digits r1 with
              | (EmptyString, _) => ("", s3)
              | (ds, r) => (String e esign +:+ ds, r)
              end
            else ("", s3)
        | EmptyString => ("", s3)
        end in
      Some (sign +:+ int_part +:+ frac +:+ expo, s4)
  end.

Definition hex_digit (c : ascii) : option N :=
  if between 48 57 c then Some (code c - 48)
  else if between 97 102 c then Some (code c - 87)
  else if between 65 70 c then Some (code c - 55)
  else None.

(** four hexadecimal digits at the head *)
Definition scan_hex4 (s : string) : option (N * string) :=
  match s with
  | String a (String b (String c (String d rest))) =>
      match hex_digit a, hex_digit b, hex_digit c, hex_digit d with
      | Some x, Some y, Some z, Some w => Some (((x * 16 + y) * 16 + z) * 16 + w, rest)
      | _, _, _, _ => None
      end
  | _ => None
  end.

Definition byte (n : N) : string := String (ascii_of_N n) EmptyString.

(** UTF-8 of a code point *)
Definition utf8 (cp : N) : string :=
  if cp <? 128 then byte cp
  else if cp <? 2048 then byte (192 + cp / 64) +:+ byte (128 + cp mod 64)
  else if cp <? 65536 then
    byte (224 + cp / 4096) +:+ byte (128 + (cp / 64) mod 64) +:+ byte (128 + cp mod 64)
  else
    byte (240 + cp / 262144) +:+ byte (128 + (cp / 4096) mod 64)
      +:+ byte (128 + (cp / 64) mod 64) +:+ byte (128 + cp mod 64).

(** the code point of a unicode escape whose digits are at the head; a
    high surrogate joins the low surrogate escape that follows it *)
Definition scan_unicode (s : string) : option (N * string) :=
  match scan_hex4 s with
  | None => None
  | Some (hi, rest) =>
      if (55296 <=? hi) && (hi <=? 56319) then
        match rest with
        | String b (String u rest') =>
            if Ascii.eqb b backslash && Ascii.eqb u "u" then
              match scan_hex4 rest' with
              | Some (lo, rest'') =>
                  if (56320 <=? lo) && (lo <=? 57343)
                  then Some (65536 + (hi - 55296) * 1024 + (lo - 56320), rest'')
                  else Some (hi, rest)
              | None => Some (hi, rest)
              end
            else Some (hi, rest)
        | _ => Some (hi, rest)
        end
      else Some (hi, rest)
  end.

(** the body of a string literal, after its opening quote *)
Fixpoint scan_string (fuel : nat) (s : string) : option (string * string) :=
  match fuel with
  | O => None
  | S fuel =>
      match s with
      | EmptyString => None
      | String c rest =>
          if Ascii.eqb c dquote then Some (EmptyString, rest)
          else if Ascii.eqb c backslash then
            match rest with
            | EmptyString => None
            | String e rest' =>
                let simple (x : ascii) :=
                  match scan_string fuel rest' with
                  | Some (body, r) => Some (String x body, r)
                  | None => None
                  end in
                if Ascii.eqb e dquote then simple dquote
                else if Ascii.eqb e backslash then simple backslash
                else if Ascii.eqb e "/" then simple "/"%char
                else if Ascii.eqb e "b" then simple (ascii_of_nat 8)
                else if Ascii.eqb e "f" then simple (ascii_of_nat 12)
                else if Ascii.eqb e "n" then simple (ascii_of_nat 10)
                else if Ascii.eqb e "r" then simple (ascii_of_nat 13)
                else if Ascii.eqb e "t" then simple (ascii_of_nat 9)
                else if Ascii.eqb e "u" then
                  match scan_unicode rest' with
                  | Some (cp, r1) =>
                      match scan_string fuel r1 with
                      | Some (body, r) => Some (utf8 cp +:+ body, r)
                      | None => None
                      end
                  | None => None
                  end
                else None
            end
          else if code c <? 32 then None
          else
            match scan_string fuel rest with
            | Some (body, r) => Some (String c body, r)
            | None => None
            end
      end
  end.

(** What scanning at the head of a text comes to: a value and the text
    after it, a text outside the grammar ([json.JSONDecodeError]), or an
    exception of another kind that ends the decoding there and then. *)
Inductive scan : Type :=
| Found (v : json) (rest : string)
| Invalid
| Raises (fault : py_fault).

(** The digits an integer literal may have: more and [int] refuses it
    with a [ValueError] ([sys.get_int_max_str_digits()]). *)
Definition int_max_str_digits : N := 4300.

(** The containers that may be open at once: the scanner enters a
    recursive call for each array and object, and the interpreter ends
    the call with a [RecursionError] when its recursion limit (1000
    levels unless changed) is used up. *)
Definition nesting_limit : nat := 1000.

(** a number at the head: a literal without fraction and exponent is an
    [int], and is refused when it has too many digits *)
Definition parse_number (s : string) : scan :=
  match scan_number s with
  | None => Invalid
  | Some (literal, r) =>
      let digits :=
        match literal with
        | String c rest => if Ascii.eqb c "-" then rest else literal
        | EmptyString => literal
        end in
      if str_contains "." literal || str_contains "e" literal || str_contains "E" literal
      then Found (JNum literal) r
      else if int_max_str_digits <? N.of_nat (String.length digits)
      then Raises (IntegerTooLong (String.length digits))
      else Found (JNum literal) r
  end.

Fixpoint parse_value (fuel depth : nat) (s : string) {struct fuel} : scan :=
  match fuel with
  | O => Invalid
  | S fuel =>
      match s with
      | EmptyString => Invalid
      | String c rest =>
          if Ascii.eqb c dquote then
            match scan_string (String.length s) rest with
            | Some (body, r) => Found (JStr body) r
            | None => Invalid
            end
          else if Ascii.eqb c "{" then
            match depth with
            | O => Raises (RecursionLimit "object")
            | S depth =>
                match skip_ws rest with
                | String c' r =>
                    if Ascii.eqb c' "}" then Found (JObj []) r
                    else parse_members fuel depth [] (String c' r)
                | EmptyString => Invalid
                end
            end
          else if Ascii.eqb c "[" then
            match depth with
            | O => Raises (RecursionLimit "array")
            | S depth =>
                match skip_ws rest with
                | String c' r =>
                    if Ascii.eqb c' "]" then Found (JArr []) r
                    else parse_elements fuel depth [] (String c' r)
                | EmptyString => Invalid
                end
            end
          else
            match strip_prefix "null" s, strip_prefix "true" s, strip_prefix "false" s with
            | Some r, _, _ => Found JNull r
            | _, Some r, _ => Found (JBool true) r
            | _, _, Some r => Found (JBool false) r
            | None, None, None =>
                match strip_prefix "NaN" s, strip_prefix "Infinity" s,
                      strip_prefix "-Infinity" s with
                | Some r, _, _ => Found (JNum "NaN") r
                | _, Some r, _ => Found (JNum "Infinity") r
                | _, _, Some r => Found (JNum "-Infinity") r
                | None, None, None => parse_number s
                end
            end
      end
  end

(** the members of an object, from the quote of a key on *)
with parse_members (fuel depth : nat) (acc : list (string * json)) (s : string)
    {struct fuel} : scan :=
  match fuel with
  | O => Invalid
  | S fuel =>
      match s with
      | EmptyString => Invalid
      | String q rest =>
          if Ascii.eqb q dquote then
            match scan_string (String.length s) rest with
            | None => Invalid
            | Some (key, r1) =>
                match skip_ws r1 with
                | String colon r2 =>
                    if Ascii.eqb colon ":" then
                      match parse_value fuel depth (skip_ws r2) with
                      | Invalid => Invalid
                      | Raises fault => Raises fault
                      | Found v r3 =>
                          let acc := dict_set key v acc in
                          match skip_ws r3 with
                          | String d r4 =>
                              if Ascii.eqb d "," then parse_members fuel depth acc (skip_ws r4)
                              else if Ascii.eqb d "}" then Found (JObj acc) r4
                              else Invalid
                          | EmptyString => Invalid
                          end
                      end
                    else Invalid
                | EmptyString => Invalid
                end
            end
          else Invalid
      end
  end

(** the elements of an array, from the first character of one on *)
with parse_elements (fuel depth : nat) (acc : list json) (s : string)
    {struct fuel} : scan :=
  match fuel with
  | O => Invalid
  | S fuel =>
      match parse_value fuel depth s with
      | Invalid => Invalid
      | Raises fault => Raises fault
      | Found v r1 =>
          let acc := acc ++ [v] in
          match skip_ws r1 with
          | String d r2 =>
              if Ascii.eqb d "," then parse_elements fuel depth acc (skip_ws r2)
              else if Ascii.eqb d "]" then Found (JArr acc) r2
              else Invalid
          | EmptyString => Invalid
          end
      end
  end.

(** [json.loads]: one value, white space around it, nothing else *)
Definition loads (s : string) : decoding :=
  match parse_value (2 * String.length s + 2)%nat nesting_limit (skip_ws s) with
  | Found v rest =>
      match skip_ws rest with
      | EmptyString => Decoded v
      | String _ _ => JSONDecodeError
      end
  | Invalid => JSONDecodeError
  | Raises fault => DecoderRaised fault
  end.

(** *** Rendering *)

Definition type_name (v : json) : string :=
  match v with
  | JNull => "NoneType"
  | JBool _ => "bool"
  | JNum literal =>
      if str_contains "." literal || str_contains "e" literal
         || str_contains "E" literal || str_contains "N" literal
         || str_contains "I" literal
      then "float" else "int"
  | JStr _ => "str"
  | JArr _ => "list"
  | JObj _ => "dict"
  end.

Definition squote (s : string) : string := "'" +:+ s +:+ "'".

Definition decimal (n : N) : string := NilZero.string_of_uint (N.to_uint n).

(** [repr]; exact on [None], booleans, integer literals as Python
    prints them, and strings free of quotes, backslashes and control
    characters, and on lists and dicts of those *)
Fixpoint repr (v : json) : string :=
  match v with
  | JNull => "None"
  | JBool true => "True"
  | JBool false => "False"
  | JNum literal => literal
  | JStr s => squote s
  | JArr items => "[" +:+ Route.join ", " (map repr items) +:+ "]"
  | JObj members =>
      "{" +:+ Route.join ", "
                (map (fun kv => squote (fst kv) +:+ ": " +:+ repr (snd kv)) members)
          +:+ "}"
  end.

Definition fault_text (f : py_fault) : string :=
  match f with
  | NotIterable v => "argument of type " +:+ squote (type_name v) +:+ " is not iterable"
  | BadSubscript (JStr _) => "string indices must be integers, not 'str'"
  | BadSubscript (JArr _) => "list indices must be integers or slices, not str"
  | BadSubscript v => squote (type_name v) +:+ " object is not subscriptable"
  | NoAttribute v => squote (type_name v) +:+ " object has no attribute 'get'"
  | MissingKey key => squote key
  | Unhashable v => "unhashable type: " +:+ squote (type_name v)
  | NotAMapping v =>
      "gradient_agent.Tool.execute() argument after ** must be a mapping, not "
        +:+ type_name v
  | MultipleValues key =>
      "Tool.execute() got multiple values for argument " +:+ squote key
  | NotText v =>
      "the JSON object must be str, bytes or bytearray, not " +:+ type_name v
  | RecursionLimit container =>
      "maximum recursion depth exceeded while decoding a JSON " +:+ container
        +:+ " from a unicode string"
  | IntegerTooLong digits =>
      "Exceeds the limit (4300 digits) for integer string conversion: value has "
        +:+ decimal (N.of_nat digits)
        +:+ " digits; use sys.set_int_max_str_digits() to increase the limit"
  end.

Definition runtime : Runtime := {|
  json_loads := loads;
  str_strip := strip;
  format_value := repr;
  fault_message := fault_text
|}.
End CPython.

(** ** Measures and reference renderings used by the statements *)

(** The request an agent sends on a given working list. *)
Definition call_of (self : GradientAgent.t) (messages : list wire) : Call :=
  Build_Call (GradientAgent.model self) (GradientAgent.is_anthropic self) messages 2000.

(** What an iteration appends after a tool call or a delegation. *)
Definition fed_back (response label result : string) : list wire :=
  [GradientAgent.assistant_turn response;
   GradientAgent.user_turn (JStr (label +:+ result))].

(** An upper bound on the backend calls of one external call: each of
    the ten iterations makes one call and may delegate once. *)
Fixpoint call_bound (a : GradientAgent.t) : nat :=
  GradientAgent.max_iterations
  * S (list_max (map call_bound (GradientAgent.sub_agents a))).

Definition str_concat (parts : list string) : string :=
  fold_right String.append EmptyString parts.

(** A titled block of lines, left out altogether when there are none. *)
Definition prompt_section (title : string) (lines : list string) : string :=
  match lines with
  | [] => EmptyString
  | _ => title +:+ nl +:+ str_concat lines +:+ nl
  end.

(** The system prompt written out: the instruction and an empty line;
    then, when there are tools, the title of their block, a line
    [- <name>: <description>] for each in list order, and an empty line;
    then the same for the sub-agents under their own title. *)
Definition rendered_prompt (a : GradientAgent.t) : string :=
  GradientAgent.instruction a +:+ nl +:+ nl
  +:+ prompt_section "AVAILABLE TOOLS:"
        (map (fun tool => "- " +:+ Tool.name tool +:+ ": " +:+ Tool.description tool +:+ nl)
             (GradientAgent.tools a))
  +:+ prompt_section "AVAILABLE SUB-AGENTS:"
        (map (fun agent =>
                "- " +:+ GradientAgent.name agent +:+ ": "
                  +:+ GradientAgent.description agent +:+ nl)
             (GradientAgent.sub_agents a)).

(** The backend answers every request with a tool-call envelope. *)
Definition always_tool_call (rt : Runtime) (world : World) : Prop :=
  forall n call, exists response members tool_name,
    completion world n call = Completion response
    /\ json_loads rt response = Decoded (JObj members)
    /\ dict_get "tool" members = Some (JStr tool_name).

(** [grows_by n tr tr']: [tr'] is [tr] followed by at most [n] calls. *)
Definition grows_by (n : nat) (tr tr' : trace) : Prop :=
  exists more, tr' = tr ++ more /\ length more <= n.

(** A delegation handler that only ever adds requests to the trace. *)
Definition only_adds (delegate : json -> json -> M string) : Prop :=
  forall n m tr r tr', delegate n m tr = (r, tr') -> exists more, tr' = tr ++ more.

(** The text a call of the tool named [tool_name] feeds back. *)
Definition tool_result_text (rt : Runtime) (self : GradientAgent.t)
    (tool_name : string) (arguments : json) : string :=
  match GradientAgent.tools_map self !! tool_name with
  | None => "Error: Tool '" +:+ tool_name +:+ "' not found"
  | Some tool =>
      match Tool.call_execute tool arguments with
      | Ok result => fmt rt result
      | Raise e => "Error executing tool: " +:+ exn_str rt e
      end
  end.

(** The exceptions the dispatch on a decoded value can raise. *)
Definition dispatch_fault (e : exn) : Prop :=
  exists v,
    e = RuntimeFault (NotIterable v)
    \/ e = RuntimeFault (BadSubscript v)
    \/ e = RuntimeFault (Unhashable v).

(** What a loop may raise, with the trace it leaves: the failure of its
    last request, the [TypeError] of [json.loads] on an answer that is
    not text, another exception of [json.loads], or a fault of the
    dispatch on the decoded answer. *)
Definition loop_exception (rt : Runtime) (world : World) (self : GradientAgent.t)
    (e : exn) (tr' : trace) : Prop :=
  (exists detail before sent,
      e = BackendError detail
      /\ tr' = before ++ [call_of self sent]
      /\ completion world (length before) (call_of self sent) = Failure detail)
  \/ (exists before sent content,
        GradientAgent._call_gradient world self sent 2000 before = (Ok content, tr')
        /\ (forall text, content <> JStr text)
        /\ e = RuntimeFault (NotText content))
  \/ (exists before sent response fault,
        GradientAgent._call_gradient world self sent 2000 before
        = (Ok (JStr response), tr')
        /\ json_loads rt response = DecoderRaised fault
        /\ e = RuntimeFault fault)
  \/ dispatch_fault e.

(** ** Concrete conversations *)

Module Scenario.
Definition quoted (s : string) : string :=
  String CPython.dquote (s +:+ String CPython.dquote EmptyString).

(** [{"tool": "<name>"}] *)
Definition tool_envelope (tool_name : string) : string :=
  "{" +:+ quoted "tool" +:+ ": " +:+ quoted tool_name +:+ "}".

(** [{"tool": "echo", "arguments": {"text": "<text>"}}] *)
Definition echo_envelope (text : string) : string :=
  "{" +:+ quoted "tool" +:+ ": " +:+ quoted "echo" +:+ ", "
      +:+ quoted "arguments" +:+ ": {" +:+ quoted "text" +:+ ": " +:+ quoted text
      +:+ "}}".

(** [{"agent": "<name>", "message": "<text>"}] *)
Definition agent_envelope (agent_name text : string) : string :=
  "{" +:+ quoted "agent" +:+ ": " +:+ quoted agent_name +:+ ", "
      +:+ quoted "message" +:+ ": " +:+ quoted text +:+ "}".

(** [{"tool": "<tool>", "agent": "<agent>"}] *)
Definition both_envelope (tool_name agent_name : string) : string :=
  "{" +:+ quoted "tool" +:+ ": " +:+ quoted tool_name +:+ ", "
      +:+ quoted "agent" +:+ ": " +:+ quoted agent_name +:+ "}".

Definition echo : Tool.t :=
  Tool.mk "echo" "Repeats its text." (fun kwargs => Ok (default JNull (dict_get "text" kwargs))).

Definition failing : Tool.t :=
  Tool.mk "failing" "Always fails." (fun _ => Raise (ExecutorError "boom")).

Definition summarizer : GradientAgent.t :=
  GradientAgent.init "Summarizer" "openai-gpt-oss-120b"
    "Summarizes text, images, or documents." "Crisp summarizer." [] [].

Definition root : GradientAgent.t :=
  GradientAgent.init "arrow_agent" "root-model" "Multi-tool AI agent."
    "Intelligent AI assistant." [echo; failing] [summarizer].

(** A backend that plays a script, call after call. *)
Definition scripted (replies : list reply) (otherwise : reply) : World := {|
  completion := fun n _ => nth n replies otherwise;
  uuid4 := "00000000-0000-4000-8000-000000000000";
  cloudflare_context := fun _ => EmptyString
|}.

(** A backend that answers each agent by its model. *)
Definition by_model (root_reply sub_reply : reply) : World := {|
  completion := fun _ call =>
    if String.eqb (call_model call) "root-model" then root_reply else sub_reply;
  uuid4 := "00000000-0000-4000-8000-000000000000";
  cloudflare_context := fun _ => EmptyString
|}.

Definition session : Session.t := Session.new "s1" "default_user" "arrow_agent".

Definition run (world : World) (message : string) : res string * trace :=
  GradientAgent._process_message CPython.runtime world root (JStr message) session [].

Definition request (text : string) : Route.AgentRequest :=
  {| Route.message := text; Route.context_parts := None; Route.session_id := Some "s1" |}.

Definition runner : InMemoryRunner.t := InMemoryRunner.init root "arrow_agent".

(** the contents of the user turns of a request *)
Definition user_contents (call : Call) : list json :=
  map wire_content (filter (fun w => wire_role w = "user") (call_messages call)).
End Scenario.

(** ** The request bodies of [_call_gradient]

    What [_call_gradient] puts in the JSON body of its POST, for the two
    API variants, from the data a [Call] records. *)

Module Backend.
Record Body : Type := {
  body_model : string;
  body_messages : list wire;
  body_max_tokens : nat;
  body_system : option json
}.

Definition is_system (msg : wire) : bool := String.eqb (wire_role msg) "system".

(** One turn of the [for msg in messages] of the Anthropic branch, on
    the pair of [system_message] and [anthropic_messages]. *)
Definition split_step (st : option json * list wire) (msg : wire)
  : option json * list wire :=
  if is_system msg
  then (Some (wire_content msg), snd st)
  else (fst st, snd st ++ [Wire (wire_role msg) (wire_content msg)]).

Definition split_system (messages : list wire) : option json * list wire :=
  foldl split_step (None, []) messages.

Section Truth.
(** whether a number literal decodes to zero *)
Variable number_is_zero : string -> bool.

(** [bool(v)] *)
Definition truthy (v : json) : bool :=
  match v with
  | JNull => false
  | JBool b => b
  | JNum literal => negb (number_is_zero literal)
  | JStr s => negb (String.eqb s "")
  | JArr items => match items with [] => false | _ => true end
  | JObj members => match members with [] => false | _ => true end
  end.

Definition request_body (call : Call) : Body :=
  if call_anthropic call then
    let '(system_message, anthropic_messages) := split_system (call_messages call) in
    {| body_model := call_model call;
       body_messages := anthropic_messages;
       body_max_tokens := call_max_tokens call;
       body_system :=
         match system_message with
         | Some content => if truthy content then Some content else None
         | None => None
         end |}
  else
    {| body_model := call_model call;
       body_messages := call_messages call;
       body_max_tokens := call_max_tokens call;
       body_system := None |}.
End Truth.
End Backend.

(** ** [Tool.to_function_definition]

    The schema derived from the signature of the wrapped function; the
    signature, which the code reads by introspection, is given. *)

Module Schema.
Inductive annotation : Type :=
| Unannotated
| AnnInt
| AnnBool
| AnnFloat
| AnnOther.

Record parameter : Type := {
  param_name : string;
  param_annotation : annotation;
  param_has_default : bool
}.

Definition param_type (a : annotation) : string :=
  match a with
  | AnnInt => "integer"
  | AnnBool => "boolean"
  | AnnFloat => "number"
  | Unannotated | AnnOther => "string"
  end.

Definition property_of (p : parameter) : json :=
  JObj [("type", JStr (param_type (param_annotation p)));
        ("description", JStr ("Parameter " +:+ param_name p))].

(** One turn of the loop over [sig.parameters], on the pair of
    [parameters["properties"]] and [parameters["required"]]. *)
Definition declare (st : list (string * json) * list string) (p : parameter)
  : list (string * json) * list string :=
  if String.eqb (param_name p) "self" then st
  else
    (dict_set (param_name p) (property_of p) (fst st),
     if param_has_default p then snd st else snd st ++ [param_name p]).

Definition derive (signature : list parameter) : list (string * json) * list string :=
  foldl declare ([], []) signature.

Definition to_function_definition (self : Tool.t) (signature : list parameter) : json :=
  let '(properties, required) := derive signature in
  JObj [("name", JStr (Tool.name self));
        ("description", JStr (Tool.description self));
        ("parameters",
         JObj [("type", JStr "object");
               ("properties", JObj properties);
               ("required", JArr (map JStr required))])].
End Schema.

(** What the loop over the parameters keeps true of its two results. *)
Definition schema_ok (signature : list Schema.parameter)
    (st : list (string * json) * list string) : Prop :=
  (forall p, In p signature -> Schema.param_name p <> "self" ->
             dict_has (Schema.param_name p) (fst st) = true
             /\ (Schema.param_has_default p = false -> In (Schema.param_name p) (snd st)))
  /\ (forall n, In n (snd st) ->
                dict_has n (fst st) = true
                /\ exists p, In p signature /\ Schema.param_name p = n
                             /\ Schema.param_has_default p = false)
  /\ (forall n v, dict_get n (fst st) = Some v ->
                  n <> "self"
                  /\ exists p, In p signature /\ Schema.param_name p = n
                               /\ v = Schema.property_of p).

(** ** [tool_adapter.FunctionTool] *)

Module ToolAdapter.
(** A Python function: its [__name__], its [__doc__] and what calling
    it with keywords does. *)
Record callable : Type := {
  fn_name : string;
  fn_doc : option string;
  fn_call : list (string * json) -> res json
}.

(** [o or d] for an optional [str] *)
Definition opt_or (o : option string) (d : string) : string :=
  match o with
  | Some (String c rest) => String c rest
  | Some EmptyString | None => d
  end.

Definition FunctionTool (func : callable) (name description : option string) : Tool.t :=
  let tool_name := opt_or name (fn_name func) in
  let tool_description :=
    opt_or description (opt_or (fn_doc func) ("Tool: " +:+ tool_name)) in
  Tool.mk tool_name tool_description (fn_call func).
End ToolAdapter.

(** ** [cloudflare_client] *)

Module Cloudflare.
Record Config : Type := {
  enabled : bool;
  endpoint : string;
  api_token : string;
  default_model : string;
  rag_top_k : nat
}.

Definition nonempty (s : string) : bool :=
  match s with
  | EmptyString => false
  | String _ _ => true
  end.

Definition is_enabled (cfg : Config) : bool :=
  enabled cfg && nonempty (endpoint cfg) && nonempty (api_token cfg).

(** [s.rstrip(c)] for a one-character set *)
Fixpoint rstrip_char (c : ascii) (s : string) : string :=
  match s with
  | EmptyString => EmptyString
  | String x rest =>
      match rstrip_char c rest with
      | EmptyString => if Ascii.eqb x c then EmptyString else String x EmptyString
      | kept => String x kept
      end
  end.

Definition _base_url (cfg : Config) : string := rstrip_char "/" (endpoint cfg).

Definition search_url (cfg : Config) : string := _base_url cfg +:+ "/api/memory/search".

(** The lines [stream_chat] yields from the lines of a response: the
    payloads of the [data: ] lines, up to the one that reads [[DONE]]. *)
Fixpoint stream_chat (rt : Runtime) (lines : list string) : list string :=
  match lines with
  | [] => []
  | line :: rest =>
      if String.prefix "data: " line then
        let data := String.substring 6 (String.length line - 6) line in
        if String.eqb (str_strip rt data) "[DONE]" then []
        else data :: stream_chat rt rest
      else stream_chat rt rest
  end.

(** [build_cloudflare_context], on the outcome of [search_memory]: the
    matches by their ["text"], if they have one. *)
Definition build_cloudflare_context (cfg : Config) (search : res (list (option string)))
  : string :=
  if negb (is_enabled cfg) then ""
  else
    match search with
    | Raise _ => ""
    | Ok [] => ""
    | Ok matches =>
        let chunks :=
          omap (fun text =>
                  match text with
                  | Some (String c rest) => Some (String c rest)
                  | Some EmptyString | None => None
                  end) matches in
        let context := Route.join (nl +:+ "---" +:+ nl) chunks in
        "Relevant context from memory:" +:+ nl
        +:+ context +:+ nl
        +:+ "---" +:+ nl
        +:+ "Use the above context to inform your response if relevant." +:+ nl
    end.
End Cloudflare.

(** ** The legacy endpoint of [routes/agent.py] *)

Module Legacy.
Inductive outcome : Type :=
| Success (response : string)
| HTTPException (status_code : nat) (detail : string).

(** [process_query], for a request whose ["query"] and
    [context["selected_text"]] are strings when present.  [http_str] is
    the text [str()] gives to an [HTTPException]. *)
Definition process_query (rt : Runtime) (world : World) (http_str : nat -> string -> string)
    (arrow_runner : option InMemoryRunner.t)
    (query : option string) (selected_text : option string) (tr : trace)
  : outcome * option InMemoryRunner.t * trace :=
  let agent_request :=
    {| Route.message := default "" query;
       Route.context_parts :=
         match selected_text with
         | Some (String c rest) => Some [Some ("Selected text: " +:+ String c rest)]
         | Some EmptyString | None => None
         end;
       Route.session_id := None |} in
  match Route.process_agent_request rt world arrow_runner agent_request tr with
  | (Route.Returned result, runner, tr') => (Success (Route.response result), runner, tr')
  | (Route.HTTPException status_code detail, runner, tr') =>
      (HTTPException 500 (http_str status_code detail), runner, tr')
  end.
End Legacy.

(** ** What the request handler hands to the agent *)

(** The session id the handler settles on. *)
Definition resolved_session_id (world : World) (request : Route.AgentRequest) : string :=
  Route.str_or (default "" (Route.session_id request)) (uuid4 world).

(** The text of the user turn: memory context, message and context
    parts joined by spaces, stripped by [run_async]. *)
Definition handled_text (rt : Runtime) (world : World) (request : Route.AgentRequest)
  : string :=
  str_strip rt
    ((cloudflare_context world (Route.message request)
      +:+ Route.join " "
            (Route.message request
               :: map (default "") (default [] (Route.context_parts request))))
     +:+ " ").

(** The run of the agent's loop that the handler starts. *)
Definition handled_run (rt : Runtime) (world : World) (runner : InMemoryRunner.t)
    (request : Route.AgentRequest) (tr : trace) : res string * trace :=
  let agent := InMemoryRunner.agent runner in
  let text := handled_text rt world request in
  GradientAgent._process_message rt world agent (JStr text)
    (Session.add_message "user" text
       (Session.new (resolved_session_id world request) "default_user"
          (GradientAgent.name agent)))
    tr.

(** ** Reloading the Tadata tools of [tools/tadata.py] *)

Module Tadata.
Definition servers : list string := ["notion"; "exa"; "supabase"; "tadata"].

(** [any(server in tool.name for server in [...])] *)
Definition is_tadata_tool (tool : Tool.t) : bool :=
  existsb (fun server => str_contains server (Tool.name tool)) servers.

(** What [reload_tadata_integration_async] does to the coordinator: its
    [tools] list is replaced, nothing else is written. *)
Definition reload_tools (configured : bool) (tadata_tools : list Tool.t)
    (coordinator : GradientAgent.t) : GradientAgent.t :=
  let kept :=
    List.filter (fun tool => negb (is_tadata_tool tool)) (GradientAgent.tools coordinator) in
  let tools := if configured then kept ++ tadata_tools else kept in
  GradientAgent.mk (GradientAgent.name coordinator) (GradientAgent.model coordinator)
    (GradientAgent.description coordinator) (GradientAgent.instruction coordinator)
    tools (GradientAgent.sub_agents coordinator)
    (GradientAgent.is_anthropic coordinator) (GradientAgent.tools_map coordinator).
End Tadata.

(** ** The knowledge base of [tools/rag.py]

    [TinyStore] keeps its documents twice, in a list in memory and in a
    table keyed by the document id.  The embedding vector is whatever
    the caller computed. *)

Module TinyStore.
(** A [str] by its code points: they are what [len] counts and what a
    slice cuts. *)
Definition unicode : Type := list N.

(** the code points of a text in ASCII *)
Definition of_ascii (s : string) : unicode := map N_of_ascii (list_ascii_of_string s).

(** What [sqlite3] makes of the statement of an operation: it is
    executed and committed, or an exception is raised and the table is
    as it was (a value that cannot be bound, [None] for a column that is
    [NOT NULL], a file that cannot be opened or written). *)
Inductive sqlite : Type :=
| Executed
| Refused (detail : string).

(** How a call ends: it returns, or the exception of [sqlite3] leaves it. *)
Inductive outcome (A : Type) : Type :=
| Returned (a : A)
| Raised (detail : string).
Arguments Returned {A} a.
Arguments Raised {A} detail.

Section WithVector.
Variable vector : Type.

Record Doc : Type := {
  doc_id : string;
  doc_text : unicode;
  doc_vec : vector;
  doc_source : string;
  doc_filename : option string;
  doc_created_at : string;
  doc_metadata : list (string * json)
}.

(** [docs] is the list in memory; [rows] is the [documents] table, each
    row by the document it was written from. *)
Record t : Type := mk {
  docs : list Doc;
  rows : gmap string Doc
}.

(** [add]: append in memory, then [INSERT OR REPLACE] in the table.
    [now] is the time of the call, the document's [created_at]. *)
Definition add (db : sqlite) (now id : string) (text : unicode) (vec : vector)
    (source : string) (filename : option string)
    (metadata : option (list (string * json))) (self : t) : outcome unit * t :=
  let doc :=
    {| doc_id := id; doc_text := text; doc_vec := vec; doc_source := source;
       doc_filename := filename; doc_created_at := now;
       doc_metadata := default [] metadata |} in
  let self := mk (docs self ++ [doc]) (rows self) in
  match db with
  | Refused detail => (Raised detail, self)
  | Executed => (Returned tt, mk (docs self) (<[id := doc]> (rows self)))
  end.

(** [delete]: the list in memory is filtered, then the row is deleted;
    the call returns whether there was one. *)
Definition delete (db : sqlite) (id : string) (self : t) : outcome bool * t :=
  let kept := List.filter (fun d => negb (String.eqb (doc_id d) id)) (docs self) in
  let self := mk kept (rows self) in
  match db with
  | Refused detail => (Raised detail, self)
  | Executed =>
      (Returned (match rows self !! id with Some _ => true | None => false end),
       mk (docs self) (base.delete id (rows self)))
  end.

(** [clear]: the list in memory is emptied, then the table. *)
Definition clear (db : sqlite) (self : t) : outcome unit * t :=
  let self := mk [] (rows self) in
  match db with
  | Refused detail => (Raised detail, self)
  | Executed => (Returned tt, mk (docs self) ∅)
  end.

(** the ["preview"] of [get_all] and of [rag_query]:
    [text[:200] + "..." if len(text) > 200 else text] *)
Definition preview (text : unicode) : unicode :=
  if Nat.ltb 200 (length text)
  then firstn 200 text ++ of_ascii "..."
  else text.

(** [rag_add]: the ["id"] and the ["count"] it reports, and the store
    afterwards.  [fresh_id] is the [uuid4] drawn when no id is given. *)
Definition rag_add (db : sqlite) (now fresh_id id : string) (text : unicode) (vec : vector)
    (source : string) (filename : option string) (self : t)
  : outcome (string * nat) * t :=
  let id := match id with EmptyString => fresh_id | String _ _ => id end in
  match add db now id text vec source filename None self with
  | (Returned _, self) => (Returned (id, length (docs self)), self)
  | (Raised detail, self) => (Raised detail, self)
  end.

(** Memory and table hold the same ids. *)
Definition same_ids (self : t) : Prop :=
  forall id, (exists d, In d (docs self) /\ doc_id d = id) <-> is_Some (rows self !! id).
End WithVector.
End TinyStore.

(** ** The query parameters of [routes/integrations.py]

    The [params] of the Supabase query: the limit, then one entry per
    filter, written into the same [dict]. *)

Module Integrations.
Definition supabase_params (rt : Runtime) (limit : json) (filters : option (list (string * json)))
  : list (string * json) :=
  let params := [("limit", limit)] in
  match filters with
  | Some ((_ :: _) as items) =>
      foldl (fun params kv => dict_set (fst kv) (JStr ("eq." +:+ fmt rt (snd kv))) params)
            params items
  | Some [] | None => params
  end.
End Integrations.

(** [has_char c s]: the character occurs in the string. *)
Fixpoint has_char (c : ascii) (s : string) : bool :=
  match s with
  | EmptyString => false
  | String x rest => Ascii.eqb x c || has_char c rest
  end.

(** * Properties *)

Import GradientAgent.

Section LoopFacts.
Variable rt : Runtime.
Variable world : World.

Lemma bind_ok {A B} (c : M A) (k : A -> M B) tr a tr' :
  c tr = (Ok a, tr') -> bind c k tr = k a tr'.
Proof. intros H. unfold bind. now rewrite H. Qed.

Lemma bind_raise {A B} (c : M A) (k : A -> M B) tr e tr' :
  c tr = (Raise e, tr') -> bind c k tr = (Raise e, tr').
Proof. intros H. unfold bind. now rewrite H. Qed.

Lemma call_gradient_ok self messages tr text :
  completion world (length tr) (call_of self messages) = Completion text ->
  _call_gradient world self messages 2000 tr
  = (Ok (JStr text), tr ++ [call_of self messages]).
Proof. intros H. unfold _call_gradient. fold (call_of self messages). now rewrite H. Qed.

Lemma call_gradient_content self messages tr content :
  completion world (length tr) (call_of self messages) = Content content ->
  _call_gradient world self messages 2000 tr = (Ok content, tr ++ [call_of self messages]).
Proof. intros H. unfold _call_gradient. fold (call_of self messages). now rewrite H. Qed.

Lemma call_gradient_fail self messages tr detail :
  completion world (length tr) (call_of self messages) = Failure detail ->
  _call_gradient world self messages 2000 tr
  = (Raise (BackendError detail), tr ++ [call_of self messages]).
Proof. intros H. unfold _call_gradient. fold (call_of self messages). now rewrite H. Qed.

Lemma bind_congr {A B} (c : M A) (k1 k2 : A -> M B) tr :
  (forall a tr', c tr = (Ok a, tr') -> k1 a tr' = k2 a tr') ->
  bind c k1 tr = bind c k2 tr.
Proof.
  intros H. unfold bind. destruct (c tr) as [[a|e] tr']; [now apply H|reflexivity].
Qed.

(** Two delegation handlers that agree give the same loop. *)
Lemma loop_ext self (d1 d2 : json -> json -> M string) :
  (forall n m tr, d1 n m tr = d2 n m tr) ->
  forall k messages tr,
    loop rt world self d1 k messages tr = loop rt world self d2 k messages tr.
Proof.
  intros Hd k. induction k as [|k IH]; intros messages tr; [reflexivity|].
  cbn [loop]. apply bind_congr. intros content tr1 _.
  destruct content as [| | |response| |]; try reflexivity.
  destruct (json_loads rt response) as [response_data| |fault]; try reflexivity.
  apply bind_congr. intros [|] tr2 _.
  - do 3 (apply bind_congr; intros ? ? _). apply IH.
  - apply bind_congr. intros [|] tr3 _; [|reflexivity].
    apply bind_congr. intros agent_name tr4 _.
    apply bind_congr. intros agent_message tr5 _.
    unfold bind. rewrite Hd.
    destruct (d2 agent_name agent_message tr5) as [[r|e] tr6]; [apply IH|reflexivity].
Qed.

(** [_process_message] is the loop of the agent, delegating through
    [_handle_agent_delegation], started on the seeded working list. *)
Lemma process_message_loop self message session tr :
  _process_message rt world self message session tr
  = loop rt world self
      (fun agent_name agent_message =>
         _handle_agent_delegation rt world self agent_name agent_message session)
      max_iterations (seed self message session) tr.
Proof.
  destruct self as [n mo de ins tl subs an tm]. cbn [_process_message].
  apply loop_ext. intros agent_name agent_message tr0.
  unfold _handle_agent_delegation. cbn [sub_agents].
  induction subs as [|a rest IH]; [reflexivity|].
  cbn [find]. destruct (name_is agent_name a); [reflexivity|apply IH].
Qed.

(** *** The trace only grows, and by how much *)

Lemma grows_by_refl n tr : grows_by n tr tr.
Proof. exists []. split; [now rewrite app_nil_r|cbn; lia]. Qed.

Lemma grows_by_trans n1 n2 tr1 tr2 tr3 :
  grows_by n1 tr1 tr2 -> grows_by n2 tr2 tr3 -> grows_by (n1 + n2) tr1 tr3.
Proof.
  intros (m1 & -> & H1) (m2 & -> & H2). exists (m1 ++ m2). split.
  - now rewrite app_assoc.
  - rewrite length_app. lia.
Qed.

Lemma grows_by_weaken n m tr tr' : n <= m -> grows_by n tr tr' -> grows_by m tr tr'.
Proof. intros Hle (more & -> & H). exists more. split; [reflexivity|lia]. Qed.

Lemma grows_by_length n tr tr' : grows_by n tr tr' -> length tr' <= length tr + n.
Proof. intros (more & -> & H). rewrite length_app. lia. Qed.

Lemma call_gradient_grows self messages tr r tr' :
  _call_gradient world self messages 2000 tr = (r, tr') ->
  tr' = tr ++ [call_of self messages].
Proof.
  unfold _call_gradient. fold (call_of self messages).
  destruct (completion world (length tr) (call_of self messages)); now intros [= _ <-].
Qed.

(** Looking a tool up and running it talks to no backend. *)
Lemma handle_tool_call_trace self tool_name arguments tr r tr' :
  _handle_tool_call rt self tool_name arguments tr = (r, tr') -> tr' = tr.
Proof.
  unfold _handle_tool_call, bind, lift, catch, ret.
  destruct (tools_map_lookup self tool_name) as [[tool|]|e]; try now intros [= _ <-].
  destruct (Tool.call_execute tool arguments); now intros [= _ <-].
Qed.

Section LoopGrowth.
Variable self : GradientAgent.t.
Variable delegate : json -> json -> M string.
Variable cost : nat.
Hypothesis delegate_grows :
  forall n m tr r tr', delegate n m tr = (r, tr') -> grows_by cost tr tr'.

Lemma loop_grows k :
  forall messages tr r tr',
    loop rt world self delegate k messages tr = (r, tr') ->
    grows_by (k * S cost) tr tr'.
Proof.
  induction k as [|k IH]; intros messages tr r tr'.
  - cbn. intros [= _ <-]. apply grows_by_refl.
  - cbn [loop]. unfold bind at 1.
    destruct (_call_gradient world self messages 2000 tr) as [[content|e] tr1] eqn:Hcall;
      apply call_gradient_grows in Hcall; subst tr1.
    2:{ intros [= _ <-]. exists [call_of self messages]. split; [reflexivity|cbn; lia]. }
    assert (Hone : grows_by 1 tr (tr ++ [call_of self messages]))
      by (exists [call_of self messages]; split; [reflexivity|cbn; lia]).
    assert (Hstop : forall x, (x, tr ++ [call_of self messages]) = (r, tr') ->
                              grows_by (S k * S cost) tr tr').
    { intros x [= _ <-]. eapply grows_by_weaken; [|exact Hone]. cbn; lia. }
    destruct content as [| | |response| |]; try apply Hstop.
    destruct (json_loads rt response) as [response_data| |fault]; try apply Hstop.
    unfold bind at 1, lift at 1.
    destruct (py_in "tool" response_data) as [[|]|e]; [| |apply Hstop].
    + unfold bind at 1, lift at 1.
      destruct (py_getitem response_data "tool") as [tool_name|e]; [|apply Hstop].
      unfold bind at 1, lift at 1.
      destruct (py_get response_data "arguments" (JObj [])) as [arguments|e]; [|apply Hstop].
      unfold bind at 1.
      destruct (_handle_tool_call rt self tool_name arguments _) as [[result|e] tr2] eqn:Htool;
        apply handle_tool_call_trace in Htool; subst tr2; [|apply Hstop].
      intros Hrest. apply IH in Hrest.
      eapply grows_by_weaken; [|exact (grows_by_trans _ _ _ _ _ Hone Hrest)].
      cbn; lia.
    + unfold bind at 1, lift at 1.
      destruct (py_in "agent" response_data) as [[|]|e]; [|apply Hstop|apply Hstop].
      unfold bind at 1, lift at 1.
      destruct (py_getitem response_data "agent") as [agent_name|e]; [|apply Hstop].
      unfold bind at 1, lift at 1.
      destruct (py_get response_data "message" (JStr "")) as [agent_message|e]; [|apply Hstop].
      unfold bind at 1.
      destruct (delegate agent_name agent_message _) as [[result|e] tr2] eqn:Hdel;
        apply delegate_grows in Hdel.
      * intros Hrest. apply IH in Hrest.
        eapply grows_by_weaken;
          [|exact (grows_by_trans _ _ _ _ _ (grows_by_trans _ _ _ _ _ Hone Hdel) Hrest)].
        cbn; lia.
      * intros [= _ <-].
        eapply grows_by_weaken; [|exact (grows_by_trans _ _ _ _ _ Hone Hdel)].
        cbn; lia.
Qed.

(** The first request of a loop that runs at all is the one for the
    working list it was started on. *)
Lemma loop_first_call k messages tr r tr' :
  loop rt world self delegate (S k) messages tr = (r, tr') ->
  exists more, tr' = tr ++ call_of self messages :: more.
Proof.
  cbn [loop]. unfold bind at 1.
  destruct (_call_gradient world self messages 2000 tr) as [[content|e] tr1] eqn:Hcall;
    apply call_gradient_grows in Hcall; subst tr1.
  2:{ intros [= _ <-]. now exists []. }
  assert (Hstop : forall x, (x, tr ++ [call_of self messages]) = (r, tr') ->
                            exists more, tr' = tr ++ call_of self messages :: more).
  { intros x [= _ <-]. now exists []. }
  assert (Hgo : forall (c : M string) tr2,
             grows_by cost (tr ++ [call_of self messages]) tr2 ->
             forall n, (c tr2 = (r, tr') -> grows_by n tr2 tr') ->
             c tr2 = (r, tr') -> exists more, tr' = tr ++ call_of self messages :: more).
  { intros c tr2 (m1 & -> & _) n Hc Heq. destruct (Hc Heq) as (m2 & -> & _).
    exists (m1 ++ m2). now rewrite <- !app_assoc. }
  destruct content as [| | |response| |]; try apply Hstop.
  destruct (json_loads rt response) as [response_data| |fault]; try apply Hstop.
  unfold bind at 1, lift at 1.
  destruct (py_in "tool" response_data) as [[|]|e]; [| |apply Hstop].
  - unfold bind at 1, lift at 1.
    destruct (py_getitem response_data "tool") as [tool_name|e]; [|apply Hstop].
    unfold bind at 1, lift at 1.
    destruct (py_get response_data "arguments" (JObj [])) as [arguments|e]; [|apply Hstop].
    unfold bind at 1.
    destruct (_handle_tool_call rt self tool_name arguments _) as [[result|e] tr2] eqn:Htool;
      apply handle_tool_call_trace in Htool; subst tr2; [|apply Hstop].
    eapply Hgo; [apply grows_by_weaken with 0; [lia|apply grows_by_refl]|apply loop_grows].
  - unfold bind at 1, lift at 1.
    destruct (py_in "agent" response_data) as [[|]|e]; [|apply Hstop|apply Hstop].
    unfold bind at 1, lift at 1.
    destruct (py_getitem response_data "agent") as [agent_name|e]; [|apply Hstop].
    unfold bind at 1, lift at 1.
    destruct (py_get response_data "message" (JStr "")) as [agent_message|e]; [|apply Hstop].
    unfold bind at 1.
    destruct (delegate agent_name agent_message _) as [[result|e] tr2] eqn:Hdel;
      apply delegate_grows in Hdel.
    + eapply Hgo; [exact Hdel|apply loop_grows].
    + intros [= _ <-]. destruct Hdel as (m1 & -> & _). exists m1.
      now rewrite <- app_assoc.
Qed.
End LoopGrowth.

(** *** One iteration, branch by branch *)

Lemma handle_tool_call_named self tool_name arguments tr :
  _handle_tool_call rt self (JStr tool_name) arguments tr
  = (Ok (tool_result_text rt self tool_name arguments), tr).
Proof.
  unfold _handle_tool_call, tool_result_text, bind, lift, catch, ret. cbn.
  destruct (tools_map self !! tool_name) as [tool|]; [|reflexivity].
  now destruct (Tool.call_execute tool arguments).
Qed.

Lemma dict_has_get key members v : dict_get key members = Some v -> dict_has key members = true.
Proof. unfold dict_has. now intros ->. Qed.

Lemma dict_has_none key members : dict_get key members = None -> dict_has key members = false.
Proof. unfold dict_has. now intros ->. Qed.

Section Step.
Variable self : GradientAgent.t.
Variable delegate : json -> json -> M string.
Variables (k : nat) (messages : list wire) (tr : trace) (response : string).
Hypothesis answered :
  completion world (length tr) (call_of self messages) = Completion response.

Lemma loop_final_step :
  json_loads rt response = JSONDecodeError ->
  loop rt world self delegate (S k) messages tr
  = (Ok response, tr ++ [call_of self messages]).
Proof.
  intros Hjson. cbn [loop].
  rewrite (bind_ok _ _ _ _ _ (call_gradient_ok _ _ _ _ answered)).
  now rewrite Hjson.
Qed.

Lemma loop_tool_step members tool_name :
  json_loads rt response = Decoded (JObj members) ->
  dict_get "tool" members = Some tool_name ->
  loop rt world self delegate (S k) messages tr
  = bind (_handle_tool_call rt self tool_name
            (default (JObj []) (dict_get "arguments" members)))
         (fun tool_result =>
            loop rt world self delegate k
              (messages ++ fed_back response "Tool result: " tool_result))
         (tr ++ [call_of self messages]).
Proof.
  intros Hjson Htool. cbn [loop].
  rewrite (bind_ok _ _ _ _ _ (call_gradient_ok _ _ _ _ answered)).
  rewrite Hjson. cbn [py_in py_getitem py_get].
  rewrite (dict_has_get _ _ _ Htool), Htool. reflexivity.
Qed.

Lemma loop_agent_step members agent_name :
  json_loads rt response = Decoded (JObj members) ->
  dict_get "tool" members = None ->
  dict_get "agent" members = Some agent_name ->
  loop rt world self delegate (S k) messages tr
  = bind (delegate agent_name (default (JStr "") (dict_get "message" members)))
         (fun agent_result =>
            loop rt world self delegate k
              (messages ++ fed_back response "Sub-agent result: " agent_result))
         (tr ++ [call_of self messages]).
Proof.
  intros Hjson Htool Hagent. cbn [loop].
  rewrite (bind_ok _ _ _ _ _ (call_gradient_ok _ _ _ _ answered)).
  rewrite Hjson. cbn [py_in py_getitem py_get].
  rewrite (dict_has_none _ _ Htool). unfold bind at 1, lift at 1.
  rewrite (dict_has_get _ _ _ Hagent), Hagent. reflexivity.
Qed.

Lemma loop_decoder_step fault :
  json_loads rt response = DecoderRaised fault ->
  loop rt world self delegate (S k) messages tr
  = (Raise (RuntimeFault fault), tr ++ [call_of self messages]).
Proof.
  intros Hjson. cbn [loop].
  rewrite (bind_ok _ _ _ _ _ (call_gradient_ok _ _ _ _ answered)).
  now rewrite Hjson.
Qed.
End Step.

(** *** What follows an iteration *)

Section LoopExtends.
Variable self : GradientAgent.t.
Variable delegate : json -> json -> M string.
Hypothesis delegate_adds : only_adds delegate.

Lemma loop_extends k :
  forall messages tr r tr',
    loop rt world self delegate k messages tr = (r, tr') ->
    exists more, tr' = tr ++ more.
Proof.
  induction k as [|k IH]; intros messages tr r tr'.
  - cbn. intros [= _ <-]. exists []. now rewrite app_nil_r.
  - cbn [loop]. unfold bind at 1.
    destruct (_call_gradient world self messages 2000 tr) as [[content|e] tr1] eqn:Hcall;
      apply call_gradient_grows in Hcall; subst tr1.
    2:{ intros [= _ <-]. now exists [call_of self messages]. }
    assert (Hstop : forall x, (x, tr ++ [call_of self messages]) = (r, tr') ->
                              exists more, tr' = tr ++ more).
    { intros x [= _ <-]. now exists [call_of self messages]. }
    assert (Hgo : forall messages' tr2 more1,
               tr2 = tr ++ more1 ->
               loop rt world self delegate k messages' tr2 = (r, tr') ->
               exists more, tr' = tr ++ more).
    { intros messages' tr2 more1 -> Hrest. apply IH in Hrest as [more2 ->].
      exists (more1 ++ more2). now rewrite app_assoc. }
    destruct content as [| | |response| |]; try apply Hstop.
    destruct (json_loads rt response) as [response_data| |fault]; try apply Hstop.
    unfold bind at 1, lift at 1.
    destruct (py_in "tool" response_data) as [[|]|e]; [| |apply Hstop].
    + unfold bind at 1, lift at 1.
      destruct (py_getitem response_data "tool") as [tool_name|e]; [|apply Hstop].
      unfold bind at 1, lift at 1.
      destruct (py_get response_data "arguments" (JObj [])) as [arguments|e]; [|apply Hstop].
      unfold bind at 1.
      destruct (_handle_tool_call rt self tool_name arguments _) as [[result|e] tr2] eqn:Htool;
        apply handle_tool_call_trace in Htool; subst tr2; [|apply Hstop].
      now apply Hgo with (more1 := [call_of self messages]).
    + unfold bind at 1, lift at 1.
      destruct (py_in "agent" response_data) as [[|]|e]; [|apply Hstop|apply Hstop].
      unfold bind at 1, lift at 1.
      destruct (py_getitem response_data "agent") as [agent_name|e]; [|apply Hstop].
      unfold bind at 1, lift at 1.
      destruct (py_get response_data "message" (JStr "")) as [agent_message|e]; [|apply Hstop].
      unfold bind at 1.
      destruct (delegate agent_name agent_message _) as [[result|e] tr2] eqn:Hdel;
        apply delegate_adds in Hdel as [more1 ->].
      * apply Hgo with (more1 := [call_of self messages] ++ more1). now rewrite app_assoc.
      * intros [= _ <-]. exists ([call_of self messages] ++ more1). now rewrite app_assoc.
Qed.

(** A loop with no iteration left gives up without a request; one that
    has an iteration left opens with the request for its working list. *)
Lemma loop_next_request k messages tr r tr' :
  loop rt world self delegate k messages tr = (r, tr') ->
  match k with
  | O => r = Ok "Error: Maximum iterations reached" /\ tr' = tr
  | S _ => exists more, tr' = tr ++ call_of self messages :: more
  end.
Proof.
  destruct k as [|k]; [now intros [= <- <-]|].
  cbn [loop]. unfold bind at 1.
  destruct (_call_gradient world self messages 2000 tr) as [[content|e] tr1] eqn:Hcall;
    apply call_gradient_grows in Hcall; subst tr1.
  2:{ intros [= _ <-]. now exists []. }
  assert (Hstop : forall x, (x, tr ++ [call_of self messages]) = (r, tr') ->
                            exists more, tr' = tr ++ call_of self messages :: more).
  { intros x [= _ <-]. now exists []. }
  assert (Hgo : forall messages' tr2 more1,
             tr2 = (tr ++ [call_of self messages]) ++ more1 ->
             loop rt world self delegate k messages' tr2 = (r, tr') ->
             exists more, tr' = tr ++ call_of self messages :: more).
  { intros messages' tr2 more1 -> Hrest. apply loop_extends in Hrest as [more2 ->].
    exists (more1 ++ more2). now rewrite <- !app_assoc. }
  destruct content as [| | |response| |]; try apply Hstop.
  destruct (json_loads rt response) as [response_data| |fault]; try apply Hstop.
  unfold bind at 1, lift at 1.
  destruct (py_in "tool" response_data) as [[|]|e]; [| |apply Hstop].
  - unfold bind at 1, lift at 1.
    destruct (py_getitem response_data "tool") as [tool_name|e]; [|apply Hstop].
    unfold bind at 1, lift at 1.
    destruct (py_get response_data "arguments" (JObj [])) as [arguments|e]; [|apply Hstop].
    unfold bind at 1.
    destruct (_handle_tool_call rt self tool_name arguments _) as [[result|e] tr2] eqn:Htool;
      apply handle_tool_call_trace in Htool; subst tr2; [|apply Hstop].
    apply Hgo with (more1 := []). now rewrite app_nil_r.
  - unfold bind at 1, lift at 1.
    destruct (py_in "agent" response_data) as [[|]|e]; [|apply Hstop|apply Hstop].
    unfold bind at 1, lift at 1.
    destruct (py_getitem response_data "agent") as [agent_name|e]; [|apply Hstop].
    unfold bind at 1, lift at 1.
    destruct (py_get response_data "message" (JStr "")) as [agent_message|e]; [|apply Hstop].
    unfold bind at 1.
    destruct (delegate agent_name agent_message _) as [[result|e] tr2] eqn:Hdel;
      apply delegate_adds in Hdel as [more1 ->].
    + now apply Hgo with (more1 := more1).
    + intros [= _ <-]. exists more1. now rewrite <- app_assoc.
Qed.
End LoopExtends.

(** *** Induction over an agent and its sub-agents *)

Lemma agent_tree_ind (P : GradientAgent.t -> Prop)
    (step : forall a, Forall P (sub_agents a) -> P a) (a : GradientAgent.t) : P a.
Proof.
  revert a. fix IH 1. intros [n mo de ins tl subs an tm]. apply step. cbn [sub_agents].
  induction subs as [|x rest IHrest].
  - apply List.Forall_nil.
  - apply List.Forall_cons; [apply IH|exact IHrest].
Qed.

Lemma list_max_ge (l : list nat) x : In x l -> x <= list_max l.
Proof.
  induction l as [|y l IH]; [intros []|]. cbn [list_max In fold_right].
  intros [->|Hin]; [lia|]. specialize (IH Hin). unfold list_max in IH. lia.
Qed.

Lemma call_bound_unfold a :
  call_bound a = max_iterations * S (list_max (map call_bound (sub_agents a))).
Proof. now destruct a. Qed.

Lemma process_message_grows self :
  forall message session tr r tr',
    _process_message rt world self message session tr = (r, tr') ->
    grows_by (call_bound self) tr tr'.
Proof.
  induction self as [self IH] using agent_tree_ind. intros message session tr r tr'.
  rewrite process_message_loop, call_bound_unfold. apply loop_grows.
  clear tr r tr'. intros agent_name agent_message tr r tr'.
  unfold _handle_agent_delegation.
  destruct (find (name_is agent_name) (sub_agents self)) as [sub|] eqn:Hfind.
  - apply find_some in Hfind as [Hin _].
    rewrite List.Forall_forall in IH. specialize (IH sub Hin).
    unfold catch.
    destruct (_process_message rt world sub agent_message session tr) as [[x|e] tr1] eqn:Hsub;
      intros [= _ <-]; (eapply grows_by_weaken; [|eapply IH, Hsub]);
      apply list_max_ge, in_map, Hin.
  - intros [= _ <-]. apply grows_by_refl.
Qed.

(** Fed tool-call envelopes only, a loop uses up its iterations. *)
Lemma loop_exhausted self delegate :
  always_tool_call rt world ->
  forall k messages tr,
  exists more,
    loop rt world self delegate k messages tr
    = (Ok "Error: Maximum iterations reached", tr ++ more)
    /\ length more = k.
Proof.
  intros Hworld k. induction k as [|k IH]; intros messages tr.
  - exists []. now rewrite app_nil_r.
  - destruct (Hworld (length tr) (call_of self messages))
      as (response & members & tool_name & Hcall & Hjson & Htool).
    rewrite (loop_tool_step _ _ _ _ _ _ Hcall _ _ Hjson Htool).
    rewrite (bind_ok _ _ _ _ _ (handle_tool_call_named _ _ _ _)).
    destruct (IH (messages ++ fed_back response "Tool result: "
                               (tool_result_text rt self tool_name
                                  (default (JObj []) (dict_get "arguments" members))))
                 (tr ++ [call_of self messages])) as (more & -> & Hlen).
    exists (call_of self messages :: more). split; [now rewrite <- app_assoc|cbn; lia].
Qed.
End LoopFacts.

Lemma delegation_grows (rt : Runtime) (world : World) (self : GradientAgent.t)
    agent_name message session tr r tr' :
  _handle_agent_delegation rt world self agent_name message session tr = (r, tr') ->
  grows_by (list_max (map call_bound (sub_agents self))) tr tr'.
Proof.
  unfold _handle_agent_delegation.
  destruct (find (name_is agent_name) (sub_agents self)) as [sub|] eqn:Hfind.
  - apply find_some in Hfind as [Hin _]. unfold catch.
    destruct (_process_message rt world sub message session tr) as [[x|e] tr1] eqn:Hsub;
      intros [= _ <-];
      (eapply grows_by_weaken; [|eapply process_message_grows, Hsub]);
      apply list_max_ge, in_map, Hin.
  - intros [= _ <-]. apply grows_by_refl.
Qed.

Lemma delegation_only_adds (rt : Runtime) (world : World) (self : GradientAgent.t)
    (session : Session.t) :
  only_adds (fun agent_name message =>
               _handle_agent_delegation rt world self agent_name message session).
Proof.
  intros agent_name message tr r tr' Hrun.
  apply delegation_grows in Hrun as (more & -> & _). now exists more.
Qed.

(** Once an iteration has fed something back, the loop stops if that
    was its last iteration and otherwise asks again, on the working
    list as extended. *)
Lemma loop_goes_on (rt : Runtime) (world : World) (self : GradientAgent.t)
    (delegate : json -> json -> M string) (messages extended : list wire)
    (tr sent : trace) :
  (forall k, loop rt world self delegate (S k) messages tr
             = loop rt world self delegate k extended sent) ->
  loop rt world self delegate 1 messages tr = (Ok "Error: Maximum iterations reached", sent)
  /\ (forall k, only_adds delegate ->
        forall r tr', loop rt world self delegate (S (S k)) messages tr = (r, tr') ->
        exists more, tr' = sent ++ call_of self extended :: more)
  /\ (forall k answer,
        completion world (length sent) (call_of self extended) = Completion answer ->
        json_loads rt answer = JSONDecodeError ->
        loop rt world self delegate (S (S k)) messages tr
        = (Ok answer, sent ++ [call_of self extended])).
Proof.
  intros Hstep. split; [now rewrite Hstep|]. split.
  - intros k Hadds r tr' Hrun. rewrite Hstep in Hrun.
    exact (loop_next_request rt world self delegate Hadds (S k) _ _ _ _ Hrun).
  - intros k answer Hcall Hjson. rewrite Hstep. now apply loop_final_step.
Qed.

(** * The claims of the specification *)

(** ** C1: the iteration cap *)

(** C1, as the specification states it, fails once an agent delegates:
    the root answers every request with a delegation to its summarizer,
    whose own loop answers at once.  The root's loop still stops at its
    cap, but twenty requests have reached the backend, not ten. *)
Lemma delegation_exceeds_cap :
  let out :=
    Scenario.run (Scenario.by_model
                    (Completion (Scenario.agent_envelope "Summarizer" "go"))
                    (Completion "x")) "hi" in
  fst out = Ok "Error: Maximum iterations reached"
  /\ length (snd out) = 20
  /\ ~ length (snd out) <= max_iterations.
Proof.
  intros out.
  assert (Hfst : fst out = Ok "Error: Maximum iterations reached") by (vm_compute; reflexivity).
  assert (Hlen : length (snd out) = 20) by (vm_compute; reflexivity).
  rewrite Hlen. unfold max_iterations.
  split; [exact Hfst|split; [reflexivity|lia]].
Qed.

(** C1, amended.  The cap of ten bounds each loop separately: an
    external call makes at most [call_bound self] backend calls, ten for
    every loop on a path of delegations, hence at most ten when the
    agent has no sub-agent; and when the backend only ever answers with
    tool-call envelopes the loop returns the fixed text after exactly
    ten backend calls. *)
Theorem external_call_bounded (rt : Runtime) (world : World) (self : GradientAgent.t)
    (message : json) (session : Session.t) (tr : trace) :
  let out := _process_message rt world self message session tr in
  length (snd out) <= length tr + call_bound self
  /\ (sub_agents self = [] -> length (snd out) <= length tr + max_iterations)
  /\ (always_tool_call rt world ->
      fst out = Ok "Error: Maximum iterations reached"
      /\ length (snd out) = length tr + max_iterations).
Proof.
  cbv zeta.
  destruct (_process_message rt world self message session tr) as [r tr'] eqn:Hrun.
  pose proof (grows_by_length _ _ _ (process_message_grows rt world self _ _ _ _ _ Hrun)) as Hb.
  cbn [fst snd]. split; [exact Hb|]. split.
  - intros Hleaf. rewrite call_bound_unfold, Hleaf in Hb.
    cbn [map list_max fold_right] in Hb. lia.
  - intros Hworld. rewrite process_message_loop in Hrun.
    destruct (loop_exhausted rt world self
                (fun n m => _handle_agent_delegation rt world self n m session)
                Hworld max_iterations (seed self message session) tr)
      as (more & Heq & Hlen).
    rewrite Heq in Hrun. injection Hrun as <- <-.
    split; [reflexivity|]. rewrite length_app. lia.
Qed.

Lemma external_call_bounded_witness :
  let world := Scenario.scripted [] (Completion (Scenario.tool_envelope "bogus")) in
  let out :=
    _process_message CPython.runtime world Scenario.summarizer (JStr "hi")
      Scenario.session [] in
  length (snd out) <= 10
  /\ fst out = Ok "Error: Maximum iterations reached"
  /\ length (snd out) = 10.
Proof.
  intros world out.
  destruct (external_call_bounded CPython.runtime world Scenario.summarizer (JStr "hi")
              Scenario.session []) as (_ & Hleaf & Hcap).
  split; [apply Hleaf; reflexivity|].
  apply Hcap. intros n call.
  exists (Scenario.tool_envelope "bogus"), [("tool", JStr "bogus")], "bogus".
  split; [now destruct n|]. split; vm_compute; reflexivity.
Defined.

(** ** C4: text that is not JSON *)

(** Whenever [json.loads] raises [json.JSONDecodeError] on the backend's
    answer, the iteration that received it ends the loop with that very
    text, whatever the delegation handler and however many iterations
    remain; so a first answer of this kind ends [_process_message] after
    the one request for the seeded working list. *)
Lemma undecodable_response_is_final (rt : Runtime) (world : World)
    (self : GradientAgent.t) (tr : trace) (response : string) :
  json_loads rt response = JSONDecodeError ->
  (forall delegate k messages,
      completion world (length tr) (call_of self messages) = Completion response ->
      loop rt world self delegate (S k) messages tr
      = (Ok response, tr ++ [call_of self messages]))
  /\ (forall message session,
        completion world (length tr) (call_of self (seed self message session))
        = Completion response ->
        _process_message rt world self message session tr
        = (Ok response, tr ++ [call_of self (seed self message session)])).
Proof.
  intros Hjson. split.
  - intros delegate k messages Hcall. now apply loop_final_step.
  - intros message session Hcall. rewrite process_message_loop.
    now apply loop_final_step.
Qed.

Lemma undecodable_response_is_final_witness :
  let world := Scenario.scripted [Completion "Hello world"] (Failure "eof") in
  let first := call_of Scenario.root (seed Scenario.root (JStr "hi") Scenario.session) in
  CPython.loads "Hello world" = JSONDecodeError
  /\ loop CPython.runtime world Scenario.root (fun _ _ => ret "") 3
       (seed Scenario.root (JStr "hi") Scenario.session) []
     = (Ok "Hello world", [first])
  /\ Scenario.run world "hi" = (Ok "Hello world", [first]).
Proof.
  intros world first.
  assert (H : json_loads CPython.runtime "Hello world" = JSONDecodeError)
    by (vm_compute; reflexivity).
  destruct (undecodable_response_is_final CPython.runtime world Scenario.root []
              "Hello world" H) as [Hloop Hrun].
  split; [exact H|]. split; [apply Hloop|apply Hrun]; reflexivity.
Defined.

(** No other exception of [json.loads] is handled: an answer on which
    the decoder raises something else, and an answer that is not text,
    end the loop with that exception after the one request. *)
Lemma decoder_exception_leaves_loop (rt : Runtime) (world : World)
    (self : GradientAgent.t) (delegate : json -> json -> M string)
    (k : nat) (messages : list wire) (tr : trace) :
  (forall response fault,
      completion world (length tr) (call_of self messages) = Completion response ->
      json_loads rt response = DecoderRaised fault ->
      loop rt world self delegate (S k) messages tr
      = (Raise (RuntimeFault fault), tr ++ [call_of self messages]))
  /\ (forall content,
        completion world (length tr) (call_of self messages) = Content content ->
        (forall text, content <> JStr text) ->
        loop rt world self delegate (S k) messages tr
        = (Raise (RuntimeFault (NotText content)), tr ++ [call_of self messages])).
Proof.
  split.
  - intros response fault Hcall Hjson. eapply loop_decoder_step; eassumption.
  - intros content Hcall Hother. cbn [loop].
    rewrite (bind_ok _ _ _ _ _ (call_gradient_content world _ _ _ _ Hcall)).
    destruct content; try reflexivity. now destruct (Hother s).
Qed.

(** C4 fails on the code: the backend answers [NaN], which is not JSON;
    [json.loads] accepts it all the same and returns a float, the test
    for the ["tool"] key raises a [TypeError] that the handler for
    [json.JSONDecodeError] does not catch, and the request handler
    reports a server error where the claim has the text [NaN] returned
    as the final answer. *)
Theorem nan_response_is_not_returned :
  let world := Scenario.scripted [Completion "NaN"] (Failure "eof") in
  CPython.loads "NaN" = Decoded (JNum "NaN")
  /\ Scenario.run world "hi"
     = (Raise (RuntimeFault (NotIterable (JNum "NaN"))),
        [call_of Scenario.root (seed Scenario.root (JStr "hi") Scenario.session)])
  /\ fst (Scenario.run world "hi") <> Ok "NaN"
  /\ fst (fst (Route.process_agent_request CPython.runtime world (Some Scenario.runner)
                 (Scenario.request "hi") []))
     = Route.HTTPException 500 "argument of type 'float' is not iterable".
Proof.
  intros world.
  assert (Hrun : Scenario.run world "hi"
                 = (Raise (RuntimeFault (NotIterable (JNum "NaN"))),
                    [call_of Scenario.root
                       (seed Scenario.root (JStr "hi") Scenario.session)]))
    by (vm_compute; reflexivity).
  split; [vm_compute; reflexivity|]. split; [exact Hrun|].
  split; [rewrite Hrun; discriminate|vm_compute; reflexivity].
Qed.

(** Text that is not JSON because it never closes what it opens, or
    that holds an integer too long for [int], makes [json.loads] raise
    a [RecursionError] or a [ValueError]; a [null] where the text of the
    answer should be makes it raise a [TypeError].  None of them is
    returned as the answer. *)
Example decoder_exceptions_leave_loop :
  let deep := string_of_list_ascii (repeat "["%char (N.to_nat 100000)) in
  let long := string_of_list_ascii (repeat "7"%char (N.to_nat 4301)) in
  fst (Scenario.run (Scenario.scripted [Completion deep] (Failure "eof")) "hi")
  = Raise (RuntimeFault (RecursionLimit "array"))
  /\ fst (Scenario.run (Scenario.scripted [Completion long] (Failure "eof")) "hi")
     = Raise (RuntimeFault (IntegerTooLong 4301))
  /\ fst (Scenario.run (Scenario.scripted [Content JNull] (Failure "eof")) "hi")
     = Raise (RuntimeFault (NotText JNull)).
Proof. repeat split; vm_compute; reflexivity. Qed.

(** ** C7: a tool that is not registered *)



(** The third scenario of the specification, run to its end. *)
Example scenario_unregistered_tool :
  let out :=
    Scenario.run (Scenario.scripted
                    [Completion (Scenario.tool_envelope "bogus"); Completion "done"]
                    (Failure "eof")) "hi" in
  fst out = Ok "done"
  /\ map Scenario.user_contents (snd out)
     = [[JStr "hi"]; [JStr "hi"; JStr "Tool result: Error: Tool 'bogus' not found"]].
Proof. split; vm_compute; reflexivity. Qed.

(** The first and the fifth scenario of the specification: a registered
    tool is called and its result fed back; a delegation runs the
    summarizer's loop on the delegated message and feeds its answer back. *)
Example scenario_echo_and_delegation :
  let echoed :=
    Scenario.run (Scenario.scripted
                    [Completion (Scenario.echo_envelope "hi"); Completion "hi"]
                    (Failure "eof")) "say hi" in
  let delegated :=
    Scenario.run (Scenario.scripted
                    [Completion (Scenario.agent_envelope "Summarizer" "summarize X");
                     Completion "bullet list"; Completion "fine"]
                    (Failure "eof")) "hi" in
  (fst echoed = Ok "hi"
   /\ map Scenario.user_contents (snd echoed)
      = [[JStr "say hi"]; [JStr "say hi"; JStr "Tool result: hi"]])
  /\ (fst delegated = Ok "fine"
      /\ map call_model (snd delegated)
         = ["root-model"; "openai-gpt-oss-120b"; "root-model"]
      /\ map Scenario.user_contents (snd delegated)
         = [[JStr "hi"]; [JStr "summarize X"];
            [JStr "hi"; JStr "Sub-agent result: bullet list"]]).
Proof. repeat split; vm_compute; reflexivity. Qed.

(** ** C10: an envelope with both keys *)

(** C10.  When the decoded object has a ["tool"] key, the iteration is
    a tool call even if an ["agent"] key is there as well: what it does
    is fixed by [_handle_tool_call] and leaves the delegation handler
    aside.  The handler is consulted only when ["tool"] is absent and
    ["agent"] present. *)
Theorem tool_key_takes_precedence (rt : Runtime) (world : World)
    (self : GradientAgent.t) (delegate : json -> json -> M string)
    (k : nat) (messages : list wire) (tr : trace)
    (response : string) (members : list (string * json)) (agent_name : json) :
  completion world (length tr) (call_of self messages) = Completion response ->
  json_loads rt response = Decoded (JObj members) ->
  dict_get "agent" members = Some agent_name ->
  (forall tool_name,
      dict_get "tool" members = Some tool_name ->
      loop rt world self delegate (S k) messages tr
      = bind (_handle_tool_call rt self tool_name
                (default (JObj []) (dict_get "arguments" members)))
             (fun tool_result =>
                loop rt world self delegate k
                  (messages ++ [assistant_turn response;
                                user_turn (JStr ("Tool result: " +:+ tool_result))]))
             (tr ++ [call_of self messages]))
  /\ (dict_get "tool" members = None ->
      loop rt world self delegate (S k) messages tr
      = bind (delegate agent_name (default (JStr "") (dict_get "message" members)))
             (fun agent_result =>
                loop rt world self delegate k
                  (messages ++ [assistant_turn response;
                                user_turn (JStr ("Sub-agent result: " +:+ agent_result))]))
             (tr ++ [call_of self messages])).
Proof.
  intros Hcall Hjson Hagent. split.
  - intros tool_name Htool. now apply loop_tool_step with (members := members).
  - intros Htool. now apply loop_agent_step with (members := members).
Qed.

Lemma tool_key_takes_precedence_witness :
  let world :=
    Scenario.scripted [Completion (Scenario.both_envelope "echo" "Summarizer");
                       Completion "ok"] (Failure "eof") in
  let delegate := fun n m =>
    _handle_agent_delegation CPython.runtime world Scenario.root n m Scenario.session in
  let messages := seed Scenario.root (JStr "hi") Scenario.session in
  loop CPython.runtime world Scenario.root delegate 10 messages []
  = bind (_handle_tool_call CPython.runtime Scenario.root (JStr "echo") (JObj []))
         (fun tool_result =>
            loop CPython.runtime world Scenario.root delegate 9
              (messages ++ [assistant_turn (Scenario.both_envelope "echo" "Summarizer");
                            user_turn (JStr ("Tool result: " +:+ tool_result))]))
         [call_of Scenario.root messages].
Proof.
  intros world delegate messages.
  refine (proj1 (tool_key_takes_precedence CPython.runtime world Scenario.root delegate 9
                   messages [] (Scenario.both_envelope "echo" "Summarizer")
                   [("tool", JStr "echo"); ("agent", JStr "Summarizer")]
                   (JStr "Summarizer") _ _ _) (JStr "echo") _);
    vm_compute; reflexivity.
Defined.

(** Such a run to its end: the summarizer never sees a request. *)
Example scenario_both_keys :
  let out :=
    Scenario.run (Scenario.scripted
                    [Completion (Scenario.both_envelope "echo" "Summarizer");
                     Completion "ok"] (Failure "eof")) "hi" in
  fst out = Ok "ok"
  /\ map call_model (snd out) = ["root-model"; "root-model"]
  /\ map Scenario.user_contents (snd out)
     = [[JStr "hi"]; [JStr "hi"; JStr "Tool result: None"]].
Proof. repeat split; vm_compute; reflexivity. Qed.

(** ** C8: exceptions of a tool's function *)




(** ** C6: failures of the backend *)




(** ** C9: the system prompt *)

Lemma append_assoc (a b c : string) : (a +:+ b) +:+ c = a +:+ b +:+ c.
Proof.
  induction a as [|x a IH]; [reflexivity|].
  change (String x ((a +:+ b) +:+ c) = String x (a +:+ b +:+ c)). now f_equal.
Qed.

Lemma append_nil_r (a : string) : a +:+ EmptyString = a.
Proof.
  induction a as [|x a IH]; [reflexivity|].
  change (String x (a +:+ EmptyString) = String x a). now f_equal.
Qed.

(** Accumulating lines with [+=] concatenates them after what was there. *)
Lemma accumulate_lines {A} (line : A -> string) (items : list A) (prompt : string) :
  foldl (fun p x => p +:+ line x) prompt items = prompt +:+ str_concat (map line items).
Proof.
  revert prompt. induction items as [|x items IH]; intros prompt.
  - cbn. now rewrite append_nil_r.
  - change (foldl (fun p x => p +:+ line x) (prompt +:+ line x) items
            = prompt +:+ line x +:+ str_concat (map line items)).
    rewrite IH. apply append_assoc.
Qed.

(** Inserting the listed tools leaves the other names of a map alone. *)
Lemma insert_tools_other (tools : list Tool.t) (m : gmap string Tool.t) (n : string) :
  (forall tool, In tool tools -> Tool.name tool <> n) ->
  foldl (fun m tool => <[Tool.name tool := tool]> m) m tools !! n = m !! n.
Proof.
  revert m. induction tools as [|x tools IH]; intros m Hother; [reflexivity|].
  change (foldl (fun m tool => <[Tool.name tool := tool]> m)
                (<[Tool.name x := x]> m) tools !! n = m !! n).
  rewrite IH by (intros tool Hin; apply Hother; now right).
  apply lookup_insert_ne, Hother. now left.
Qed.

(** The registry an agent is constructed with holds only listed tools,
    under their names, and every listed tool when the names are unique:
    the lines of the prompt and the registry then name the same tools. *)
Lemma registry_holds_listed_tools (tools : list Tool.t) :
  (forall n tool, build_tools_map tools !! n = Some tool ->
                  In tool tools /\ Tool.name tool = n)
  /\ (List.NoDup (map Tool.name tools) ->
      forall tool, In tool tools -> build_tools_map tools !! Tool.name tool = Some tool).
Proof.
  unfold build_tools_map. split.
  - assert (H : forall (m : gmap string Tool.t) n tool,
               foldl (fun m tool => <[Tool.name tool := tool]> m) m tools !! n = Some tool ->
               (In tool tools /\ Tool.name tool = n) \/ m !! n = Some tool).
    { induction tools as [|x tools IH]; intros m n tool; [now right|].
      change (foldl (fun m tool => <[Tool.name tool := tool]> m)
                    (<[Tool.name x := x]> m) tools !! n = Some tool ->
              (In tool (x :: tools) /\ Tool.name tool = n) \/ m !! n = Some tool).
      intros Hlook. apply IH in Hlook as [[Hin Hname]|Hlook].
      - left. split; [now right|exact Hname].
      - destruct (decide (Tool.name x = n)) as [Heq|Hne].
        + rewrite Heq, lookup_insert_eq in Hlook. injection Hlook as <-.
          left. split; [now left|exact Heq].
        + rewrite lookup_insert_ne in Hlook by exact Hne. now right. }
    intros n tool Hlook. destruct (H ∅ n tool Hlook) as [Hok|Hempty]; [exact Hok|].
    now rewrite lookup_empty in Hempty.
  - generalize (∅ : gmap string Tool.t).
    induction tools as [|x tools IH]; intros m Hnodup tool Hin; [destruct Hin|].
    change (foldl (fun m tool => <[Tool.name tool := tool]> m)
                  (<[Tool.name x := x]> m) tools !! Tool.name tool = Some tool).
    cbn [map] in Hnodup. apply List.NoDup_cons_iff in Hnodup as [Hfresh Hnodup].
    destruct Hin as [->|Hin].
    + rewrite insert_tools_other; [apply lookup_insert_eq|].
      intros other Hother Heq. apply Hfresh. rewrite <- Heq. now apply in_map.
    + now apply IH.
Qed.




(** The prompt of the root agent of the scenarios, line by line. *)
Example scenario_system_prompt :
  _build_system_prompt Scenario.root
  = str_concat
      (map (fun line => line +:+ nl)
         ["Intelligent AI assistant."; "";
          "AVAILABLE TOOLS:";
          "- echo: Repeats its text.";
          "- failing: Always fails."; "";
          "AVAILABLE SUB-AGENTS:";
          "- Summarizer: Summarizes text, images, or documents."; ""]).
Proof. vm_compute. reflexivity. Qed.

(** ** C5: answers that decode to something other than an object *)

(** Only the decoding error is handled around the dispatch: a number,
    [null] or a boolean makes the test for the ["tool"] key raise. *)
Lemma scalar_response_raises (rt : Runtime) (world : World) (self : GradientAgent.t)
    (delegate : json -> json -> M string) (k : nat) (messages : list wire) (tr : trace)
    (response : string) (v : json) :
  completion world (length tr) (call_of self messages) = Completion response ->
  json_loads rt response = Decoded v ->
  (v = JNull \/ (exists b, v = JBool b) \/ (exists literal, v = JNum literal)) ->
  loop rt world self delegate (S k) messages tr
  = (Raise (RuntimeFault (NotIterable v)), tr ++ [call_of self messages]).
Proof.
  intros Hcall Hjson Hv. cbn [loop].
  rewrite (bind_ok _ _ _ _ _ (call_gradient_ok world _ _ _ _ Hcall)), Hjson.
  destruct Hv as [->|[[b ->]|[literal ->]]]; reflexivity.
Qed.

(** C5 fails on the code: the backend answers [5], which decodes to a
    number; the loop raises a [TypeError] instead of ending with an
    answer, and the request handler reports a server error. *)
Theorem json_number_response_raises :
  let world := Scenario.scripted [Completion "5"] (Failure "eof") in
  Scenario.run world "hi"
  = (Raise (RuntimeFault (NotIterable (JNum "5"))),
     [call_of Scenario.root (seed Scenario.root (JStr "hi") Scenario.session)])
  /\ fst (fst (Route.process_agent_request CPython.runtime world (Some Scenario.runner)
                 (Scenario.request "hi") []))
     = Route.HTTPException 500 "argument of type 'int' is not iterable".
Proof. split; vm_compute; reflexivity. Qed.

(** Two more answers in valid JSON that the loop does not survive: a
    string that contains the word, and a tool name that cannot be hashed. *)
Example string_and_unhashable_raise :
  fst (Scenario.run (Scenario.scripted [Completion (Scenario.quoted "use a tool")]
                       (Failure "eof")) "hi")
  = Raise (RuntimeFault (BadSubscript (JStr "use a tool")))
  /\ fst (Scenario.run (Scenario.scripted
                          [Completion ("{" +:+ Scenario.quoted "tool" +:+ ": []}")]
                          (Failure "eof")) "hi")
     = Raise (RuntimeFault (Unhashable (JArr []))).
Proof. split; vm_compute; reflexivity. Qed.

(** ** C3: the working list of the first request *)

(** [_process_message] opens with the request for the system prompt,
    the session's history and the message, in this order. *)
Lemma process_message_first_request (rt : Runtime) (world : World)
    (self : GradientAgent.t) message session tr r tr' :
  _process_message rt world self message session tr = (r, tr') ->
  exists more,
    tr' = tr ++ call_of self
                  ([Wire "system" (JStr (_build_system_prompt self))]
                     ++ map Message.to_dict (Session.history session)
                     ++ [Wire "user" message]) :: more.
Proof.
  rewrite process_message_loop. intros Hrun.
  eapply loop_first_call in Hrun; [exact Hrun|].
  intros n m tr0 r0 tr0' H. eapply delegation_grows, H.
Qed.

(** Through [run_async] the message is in the history already when the
    working list is seeded, so the first request carries it twice. *)
Lemma run_async_first_request (rt : Runtime) (world : World) (self : GradientAgent.t)
    user_id session_id new_message tr r tr' :
  run_async rt world self user_id session_id new_message tr = (r, tr') ->
  exists more,
    tr' = tr ++ call_of self
                  [Wire "system" (JStr (_build_system_prompt self));
                   Wire "user" (JStr (extract_text rt new_message));
                   Wire "user" (JStr (extract_text rt new_message))] :: more.
Proof.
  unfold run_async, bind.
  destruct (_process_message _ _ _ _ _ _) as [[response|e] tr1] eqn:Hrun;
    apply process_message_first_request in Hrun as [more ->];
    intros [= _ <-]; now exists more.
Qed.

(** C3 fails on the code: on the external call with the text [hi], the
    first request holds the system message and then the user message
    twice, once from the history [run_async] has just extended and once
    from the seeding. *)
Theorem first_request_repeats_user_message :
  let world := Scenario.scripted [Completion "hello"] (Failure "eof") in
  snd (run_async CPython.runtime world Scenario.root "default_user" "s1"
         (Some [Some "hi"]) [])
  = [call_of Scenario.root
       [Wire "system" (JStr (_build_system_prompt Scenario.root));
        Wire "user" (JStr "hi");
        Wire "user" (JStr "hi")]].
Proof. vm_compute. reflexivity. Qed.

(** ** C2: the stored history *)

(** The handler looks the session up, creates it when absent, and never
    writes to it again: afterwards the store holds the session as it
    was, or a new one with an empty history. *)
Lemma handler_keeps_stored_session (rt : Runtime) (world : World)
    (runner : InMemoryRunner.t) (request : Route.AgentRequest) (tr : trace) :
  let app := InMemoryRunner.app_name runner in
  let sid := Route.str_or (default "" (Route.session_id request)) (uuid4 world) in
  let before :=
    SessionService.get_session app "default_user" sid
      (InMemoryRunner.session_service runner) in
  exists runner',
    snd (fst (Route.process_agent_request rt world (Some runner) request tr)) = Some runner'
    /\ SessionService.get_session app "default_user" sid
         (InMemoryRunner.session_service runner')
       = Some (default (Session.new sid "default_user" app) before).
Proof.
  intros app sid before. subst before. unfold Route.process_agent_request.
  fold app sid.
  destruct (SessionService.get_session app "default_user" sid
              (InMemoryRunner.session_service runner)) as [stored|] eqn:Hstored;
    destruct (InMemoryRunner.run_async _ _ _ _ _ _ _) as [[events|e] tr'];
    cbn [fst snd]; eexists; (split; [reflexivity|]);
    cbn [InMemoryRunner.session_service default]; try exact Hstored;
    unfold SessionService.get_session, SessionService.create_session;
    cbn [snd SessionService.sessions]; apply lookup_insert_eq.
Qed.

(** C2 fails on the code: a request with the text [hi] is answered
    with [hello], and the history of the stored session is empty
    afterwards; the two messages went to a session object that
    [run_async] made for itself and dropped.  A second request in the
    same session therefore sends nothing of the first. *)
Theorem stored_history_is_not_extended :
  let world := Scenario.scripted [Completion "hello"; Completion "again"] (Failure "eof") in
  let first :=
    Route.process_agent_request CPython.runtime world (Some Scenario.runner)
      (Scenario.request "hi") [] in
  let second :=
    Route.process_agent_request CPython.runtime world (snd (fst first))
      (Scenario.request "and then?") (snd first) in
  fst (fst first)
  = Route.Returned {| Route.response := "hello";
                      Route.response_session_id := "s1";
                      Route.event_count := 1 |}
  /\ (r ← snd (fst first);
      s ← SessionService.get_session "arrow_agent" "default_user" "s1"
            (InMemoryRunner.session_service r);
      Some (Session.history s)) = Some []
  /\ map Scenario.user_contents (snd second)
     = [[JStr "hi"; JStr "hi"]; [JStr "and then?"; JStr "and then?"]].
Proof. repeat split; vm_compute; reflexivity. Qed.

(** The session object local to [run_async] does end with the pair. *)
Lemma run_async_local_history (rt : Runtime) (world : World) (self : GradientAgent.t)
    user_id session_id new_message tr events session tr' :
  run_async rt world self user_id session_id new_message tr = (Ok (events, session), tr') ->
  exists response,
    events = [{| event_parts := [response] |}]
    /\ Session.history session
       = [Message.mk "user" (extract_text rt new_message);
          Message.mk "assistant" response].
Proof.
  unfold run_async, bind.
  destruct (_process_message _ _ _ _ _ _) as [[response|e] tr1]; [|discriminate].
  intros [= <- <- <-]. now exists response.
Qed.

(** * Further properties of the code *)

(** ** The session store *)

Lemma colon_free_split (a1 r1 a2 r2 : string) :
  has_char ":" a1 = false -> has_char ":" a2 = false ->
  a1 +:+ ":" +:+ r1 = a2 +:+ ":" +:+ r2 -> a1 = a2 /\ r1 = r2.
Proof.
  revert a2. induction a1 as [|x a1 IH]; intros [|y a2] H1 H2 Heq.
  - now injection Heq.
  - injection Heq as Hy _. subst y. cbn in H2. discriminate H2.
  - injection Heq as Hx _. subst x. cbn in H1. discriminate H1.
  - change (String x (a1 +:+ ":" +:+ r1) = String y (a2 +:+ ":" +:+ r2)) in Heq.
    injection Heq as -> Heq.
    cbn [has_char] in H1, H2. apply orb_false_iff in H1 as [_ H1], H2 as [_ H2].
    destruct (IH a2 H1 H2 Heq) as [-> ->]. split; reflexivity.
Qed.

(** The key separates identities whose application name and user id
    hold no colon. *)
Lemma key_injective (a1 u1 s1 a2 u2 s2 : string) :
  has_char ":" a1 = false -> has_char ":" u1 = false ->
  has_char ":" a2 = false -> has_char ":" u2 = false ->
  SessionService.key a1 u1 s1 = SessionService.key a2 u2 s2 ->
  a1 = a2 /\ u1 = u2 /\ s1 = s2.
Proof.
  intros Ha1 Hu1 Ha2 Hu2 Hkey. unfold SessionService.key in Hkey.
  apply colon_free_split in Hkey as [-> Hkey]; [|assumption..].
  apply colon_free_split in Hkey as [-> ->]; [|assumption..].
  repeat split.
Qed.

(** X1.  Creating or deleting the session of one identity leaves the
    session of every other identity as it was, provided the application
    names and user ids hold no colon. *)
Theorem other_sessions_untouched (a1 u1 s1 a2 u2 s2 : string) (service : SessionService.t) :
  has_char ":" a1 = false -> has_char ":" u1 = false ->
  has_char ":" a2 = false -> has_char ":" u2 = false ->
  (a1, u1, s1) <> (a2, u2, s2) ->
  SessionService.get_session a2 u2 s2 (snd (SessionService.create_session a1 u1 s1 service))
  = SessionService.get_session a2 u2 s2 service
  /\ SessionService.get_session a2 u2 s2 (SessionService.delete_session a1 u1 s1 service)
     = SessionService.get_session a2 u2 s2 service.
Proof.
  intros Ha1 Hu1 Ha2 Hu2 Hne.
  assert (Hkey : SessionService.key a1 u1 s1 <> SessionService.key a2 u2 s2).
  { intros Heq. apply Hne. apply key_injective in Heq as (-> & -> & ->); auto. }
  unfold SessionService.get_session, SessionService.create_session,
    SessionService.delete_session. cbn [snd SessionService.sessions].
  split; [now apply lookup_insert_ne|].
  destruct (SessionService.sessions service !! SessionService.key a1 u1 s1);
    [|reflexivity].
  cbn [SessionService.sessions]. now apply lookup_delete_ne.
Qed.

Lemma other_sessions_untouched_witness :
  let service := snd (SessionService.create_session "arrow_agent" "default_user" "s2"
                        SessionService.init) in
  SessionService.get_session "arrow_agent" "default_user" "s2"
    (snd (SessionService.create_session "arrow_agent" "default_user" "s1" service))
  = SessionService.get_session "arrow_agent" "default_user" "s2" service.
Proof.
  intros service.
  apply (other_sessions_untouched "arrow_agent" "default_user" "s1"
           "arrow_agent" "default_user" "s2" service); try reflexivity.
  discriminate.
Defined.

(** X2.  The key joins its parts with colons and escapes nothing: the
    session created for application [a:b] and user [c] is the one found
    for application [a] and user [b:c]. *)
Theorem colon_in_identity_aliases (a b c d : string) (service : SessionService.t) :
  SessionService.get_session a (b +:+ ":" +:+ c) d
    (snd (SessionService.create_session (a +:+ ":" +:+ b) c d service))
  = Some (Session.new d c (a +:+ ":" +:+ b)).
Proof.
  unfold SessionService.get_session, SessionService.create_session.
  cbn [snd SessionService.sessions].
  assert (Hkey : SessionService.key (a +:+ ":" +:+ b) c d
                 = SessionService.key a (b +:+ ":" +:+ c) d).
  { unfold SessionService.key. now rewrite !append_assoc. }
  rewrite Hkey. apply lookup_insert_eq.
Qed.

(** X3.  Creating a session stores one with an empty history under the
    key, replacing whatever was there; deleting removes it; deleting a
    session that is not stored changes nothing. *)
Theorem session_store_round_trip (a u sid : string) (service : SessionService.t) :
  SessionService.get_session a u sid (snd (SessionService.create_session a u sid service))
  = Some (Session.new sid u a)
  /\ fst (SessionService.create_session a u sid service) = Session.new sid u a
  /\ SessionService.get_session a u sid (SessionService.delete_session a u sid service) = None
  /\ (SessionService.get_session a u sid service = None ->
      SessionService.delete_session a u sid service = service).
Proof.
  unfold SessionService.get_session, SessionService.create_session,
    SessionService.delete_session. cbn [fst snd SessionService.sessions].
  split; [apply lookup_insert_eq|]. split; [reflexivity|]. split.
  - destruct (SessionService.sessions service !! SessionService.key a u sid) eqn:Hget;
      [apply lookup_delete_eq|exact Hget].
  - now intros ->.
Qed.

Lemma session_store_round_trip_witness :
  SessionService.delete_session "arrow_agent" "default_user" "s1" SessionService.init
  = SessionService.init.
Proof.
  apply (session_store_round_trip "arrow_agent" "default_user" "s1" SessionService.init).
  reflexivity.
Defined.

(** ** The registry of tools *)

(** X4.  The registry an agent is constructed with maps a name to the
    last tool of the list that bears it: an earlier tool of the same
    name is listed in the prompt but can no longer be called. *)
Theorem registry_keeps_last_of_name (tools : list Tool.t) (n : string) :
  build_tools_map tools !! n
  = List.find (fun tool => String.eqb (Tool.name tool) n) (rev tools).
Proof.
  unfold build_tools_map. induction tools as [|x tools IH] using rev_ind; [reflexivity|].
  rewrite foldl_snoc, rev_unit. cbn [List.find].
  destruct (String.eqb_spec (Tool.name x) n) as [->|Hne].
  - apply lookup_insert_eq.
  - rewrite lookup_insert_ne by exact Hne. exact IH.
Qed.

(** ** Calling a tool *)

(** X5.  [_handle_tool_call] talks to no backend and raises in one
    case only, a tool name that is a list or an object and cannot be
    hashed.  A name that is a string gives the tool's result or an
    error text; [null], a boolean or a number is reported as not found. *)
Theorem tool_call_outcome (rt : Runtime) (self : GradientAgent.t)
    (tool_name arguments : json) (tr : trace) :
  _handle_tool_call rt self tool_name arguments tr
  = match tool_name with
    | JStr n => (Ok (tool_result_text rt self n arguments), tr)
    | JArr _ | JObj _ => (Raise (RuntimeFault (Unhashable tool_name)), tr)
    | JNull | JBool _ | JNum _ =>
        (Ok ("Error: Tool '" +:+ format_value rt tool_name +:+ "' not found"), tr)
    end.
Proof.
  destruct tool_name; try reflexivity. apply handle_tool_call_named.
Qed.

(** ** What the loop lets through *)

Lemma delegation_never_raises (rt : Runtime) (world : World) (self : GradientAgent.t)
    agent_name message session tr r tr' :
  _handle_agent_delegation rt world self agent_name message session tr = (r, tr') ->
  exists text, r = Ok text.
Proof.
  unfold _handle_agent_delegation, catch, ret.
  destruct (find (name_is agent_name) (sub_agents self)) as [sub|].
  - destruct (_process_message rt world sub message session tr) as [[x|e] tr1];
      intros Heq; injection Heq as <- _; eauto.
  - intros Heq. injection Heq as <- _. eauto.
Qed.

Lemma loop_raises (rt : Runtime) (world : World) (self : GradientAgent.t)
    (delegate : json -> json -> M string) :
  (forall n m tr r tr', delegate n m tr = (r, tr') -> exists text, r = Ok text) ->
  forall k messages tr e tr',
    loop rt world self delegate k messages tr = (Raise e, tr') ->
    loop_exception rt world self e tr'.
Proof.
  intros Hdelegate k. induction k as [|k IH]; intros messages tr e tr'; [discriminate|].
  cbn [loop]. unfold bind at 1.
  destruct (_call_gradient world self messages 2000 tr) as [[content|e0] tr1] eqn:Hcall.
  2:{ intros Heq. injection Heq as <- <-. left. unfold _call_gradient in Hcall.
      fold (call_of self messages) in Hcall.
      destruct (completion world (length tr) (call_of self messages))
        as [content|detail] eqn:Hc; try discriminate.
      injection Hcall as <- <-. now exists detail, tr, messages. }
  assert (Hother : (forall text, content <> JStr text) ->
                   (Raise (RuntimeFault (NotText content)) : res string, tr1) = (Raise e, tr') ->
                   loop_exception rt world self e tr').
  { intros Hc Heq. injection Heq as <- <-. right. left. now exists tr, messages, content. }
  destruct content as [|b|literal|response|items|members];
    try (apply Hother; discriminate).
  clear Hother.
  destruct (json_loads rt response) as [v| |fault] eqn:Hjson; [|discriminate|].
  2:{ intros Heq. injection Heq as <- <-. right. right. left.
      now exists tr, messages, response, fault. }
  assert (Hfault : forall f tr2,
             (exists w, f = NotIterable w \/ f = BadSubscript w \/ f = Unhashable w) ->
             (Raise (RuntimeFault f) : res string, tr2) = (Raise e, tr') ->
             loop_exception rt world self e tr').
  { intros f tr2 [w Hw] Heq. injection Heq as <- _. right. right. right. exists w.
    destruct Hw as [-> | [-> | ->]]; auto. }
  destruct v as [|b|literal|s0|items|members]; cbn [py_in];
    unfold bind at 1, lift at 1;
    try (apply Hfault; eexists; left; reflexivity).
  - (* a str *)
    destruct (str_contains "tool" s0).
    + unfold bind at 1, lift at 1. cbn [py_getitem].
      apply Hfault. eexists. right. left. reflexivity.
    + unfold bind at 1, lift at 1. cbn [py_in]. destruct (str_contains "agent" s0).
      * unfold bind at 1, lift at 1. cbn [py_getitem].
        apply Hfault. eexists. right. left. reflexivity.
      * discriminate.
  - (* a list *)
    destruct (existsb (is_str "tool") items).
    + unfold bind at 1, lift at 1. cbn [py_getitem].
      apply Hfault. eexists. right. left. reflexivity.
    + unfold bind at 1, lift at 1. cbn [py_in]. destruct (existsb (is_str "agent") items).
      * unfold bind at 1, lift at 1. cbn [py_getitem].
        apply Hfault. eexists. right. left. reflexivity.
      * discriminate.
  - (* a dict *)
    unfold dict_has. destruct (dict_get "tool" members) as [tool_name|] eqn:Htool.
    + unfold bind at 1, lift at 1. cbn [py_getitem]. rewrite Htool.
      unfold bind at 1, lift at 1. cbn [py_get].
      unfold bind at 1.
      destruct tool_name as [|b|literal|n|items|fields];
        try (rewrite handle_tool_call_named); try (apply IH);
        apply Hfault; eexists; right; right; reflexivity.
    + unfold bind at 1, lift at 1. cbn [py_in]. unfold dict_has.
      destruct (dict_get "agent" members) as [agent_name|] eqn:Hagent; [|discriminate].
      unfold bind at 1, lift at 1. cbn [py_getitem]. rewrite Hagent.
      unfold bind at 1, lift at 1. cbn [py_get]. unfold bind at 1.
      destruct (delegate agent_name _ tr1) as [r tr2] eqn:Hdel.
      destruct (Hdelegate _ _ _ _ _ Hdel) as [text ->]. apply IH.
Qed.



(** X7.  A decoded answer in which neither the test for ["tool"] nor
    the test for ["agent"] succeeds (an object with neither key, a list
    with neither string, a string with neither word) ends the loop: the
    raw text is the final answer. *)
Theorem keyless_value_is_final (rt : Runtime) (world : World) (self : GradientAgent.t)
    (delegate : json -> json -> M string) (k : nat) (messages : list wire) (tr : trace)
    (response : string) (v : json) :
  completion world (length tr) (call_of self messages) = Completion response ->
  json_loads rt response = Decoded v ->
  py_in "tool" v = Ok false ->
  py_in "agent" v = Ok false ->
  loop rt world self delegate (S k) messages tr
  = (Ok response, tr ++ [call_of self messages]).
Proof.
  intros Hcall Hjson Htool Hagent. cbn [loop].
  rewrite (bind_ok _ _ _ _ _ (call_gradient_ok world _ _ _ _ Hcall)), Hjson.
  rewrite Htool. unfold bind at 1, lift at 1. rewrite Hagent. reflexivity.
Qed.

Lemma keyless_value_is_final_witness :
  let answer := "{" +:+ Scenario.quoted "answer" +:+ ": 42}" in
  Scenario.run (Scenario.scripted [Completion answer] (Failure "eof")) "hi"
  = (Ok answer, [call_of Scenario.root (seed Scenario.root (JStr "hi") Scenario.session)]).
Proof.
  intros answer. unfold Scenario.run. rewrite process_message_loop.
  apply (keyless_value_is_final CPython.runtime _ Scenario.root _ 9 _ [] answer
           (JObj [("answer", JNum "42")])); vm_compute; reflexivity.
Defined.

(** ** Delegation *)



(** X9.  Delegating to a sub-agent that exists runs the loop of the
    first sub-agent of that name: its first request is made with its own
    system prompt, the history of the caller's session and the
    delegated message (none of the caller's working list), it makes at
    most [call_bound] requests, and whatever it raises comes back as
    text. *)
Theorem delegation_runs_sub_agent (rt : Runtime) (world : World) (self : GradientAgent.t)
    (agent_name message : json) (session : Session.t) (sub : GradientAgent.t)
    (tr : trace) (r : res string) (tr' : trace) :
  find (name_is agent_name) (sub_agents self) = Some sub ->
  _handle_agent_delegation rt world self agent_name message session tr = (r, tr') ->
  (exists text, r = Ok text)
  /\ exists more,
      tr' = tr ++ call_of sub
                    ([Wire "system" (JStr (_build_system_prompt sub))]
                       ++ map Message.to_dict (Session.history session)
                       ++ [Wire "user" message]) :: more
      /\ S (length more) <= call_bound sub.
Proof.
  intros Hfind Hrun. split; [eapply delegation_never_raises, Hrun|].
  unfold _handle_agent_delegation, catch in Hrun. rewrite Hfind in Hrun.
  destruct (_process_message rt world sub message session tr) as [r1 tr1] eqn:Hsub.
  assert (Htr : tr1 = tr') by (destruct r1; now injection Hrun). subst tr1.
  pose proof (process_message_grows rt world sub _ _ _ _ _ Hsub) as (rest & Hrest & Hlen).
  apply process_message_first_request in Hsub as [more Hmore].
  exists more. split; [exact Hmore|].
  rewrite Hrest in Hmore. apply app_inv_head in Hmore. subst rest. exact Hlen.
Qed.

Lemma delegation_runs_sub_agent_witness :
  exists more,
    snd (_handle_agent_delegation CPython.runtime
           (Scenario.scripted [Completion "bullet list"] (Failure "eof")) Scenario.root
           (JStr "Summarizer") (JStr "summarize X") Scenario.session [])
    = [] ++ call_of Scenario.summarizer
              ([Wire "system" (JStr (_build_system_prompt Scenario.summarizer))]
                 ++ map Message.to_dict (Session.history Scenario.session)
                 ++ [Wire "user" (JStr "summarize X")]) :: more
    /\ S (length more) <= call_bound Scenario.summarizer.
Proof.
  eapply (delegation_runs_sub_agent CPython.runtime
            (Scenario.scripted [Completion "bullet list"] (Failure "eof")) Scenario.root
            (JStr "Summarizer") (JStr "summarize X") Scenario.session Scenario.summarizer []).
  - reflexivity.
  - apply surjective_pairing.
Defined.

(** ** The request bodies *)

Lemma split_system_from (messages : list wire) (system_message : option json)
    (kept : list wire) :
  foldl Backend.split_step (system_message, kept) messages
  = (match last (map wire_content (List.filter Backend.is_system messages)) with
     | Some content => Some content
     | None => system_message
     end,
     kept ++ List.filter (fun msg => negb (Backend.is_system msg)) messages).
Proof.
  revert system_message kept.
  induction messages as [|msg messages IH]; intros system_message kept.
  - cbn. now rewrite app_nil_r.
  - change (foldl Backend.split_step (Backend.split_step (system_message, kept) msg) messages
            = (match last (map wire_content (List.filter Backend.is_system (msg :: messages))) with
               | Some content => Some content
               | None => system_message
               end,
               kept ++ List.filter (fun m => negb (Backend.is_system m)) (msg :: messages))).
    unfold Backend.split_step at 2. cbn [List.filter fst snd].
    destruct (Backend.is_system msg) eqn:Hsys; cbn [negb map]; rewrite IH.
    + rewrite last_cons.
      now destruct (last (map wire_content (List.filter Backend.is_system messages))).
    + destruct msg as [role content]. cbn [wire_role wire_content].
      now rewrite <- app_assoc.
Qed.

(** X10.  The body for the Anthropic variant carries no message of
    role [system]: the other messages go in [messages] in their order,
    and of the system messages only the content of the last goes in
    [system], and only if it is truthy.  The generic body carries the
    list as it is. *)
Theorem request_body_split (number_is_zero : string -> bool) (call : Call) :
  let body := Backend.request_body number_is_zero call in
  Backend.body_messages body
  = (if call_anthropic call
     then List.filter (fun msg => negb (Backend.is_system msg)) (call_messages call)
     else call_messages call)
  /\ Backend.body_system body
     = (if call_anthropic call
        then match last (map wire_content (List.filter Backend.is_system (call_messages call))) with
             | Some content =>
                 if Backend.truthy number_is_zero content then Some content else None
             | None => None
             end
        else None)
  /\ Backend.body_model body = call_model call
  /\ Backend.body_max_tokens body = call_max_tokens call.
Proof.
  unfold Backend.request_body, Backend.split_system. rewrite split_system_from.
  destruct (call_anthropic call); cbn; repeat split; try reflexivity.
  now destruct (last (map wire_content (List.filter Backend.is_system (call_messages call)))).
Qed.

Lemma append_cons (c : ascii) (a b : string) : String c a +:+ b = String c (a +:+ b).
Proof. reflexivity. Qed.

Lemma append_nonempty_r (a b : string) : b <> EmptyString -> a +:+ b <> EmptyString.
Proof. destruct a; [trivial|]. intros _. rewrite append_cons. discriminate. Qed.

Lemma system_prompt_nonempty (self : GradientAgent.t) :
  _build_system_prompt self <> EmptyString.
Proof.
  unfold _build_system_prompt.
  destruct (tools self); destruct (sub_agents self);
    repeat (apply append_nonempty_r); discriminate.
Qed.

Lemma filter_none_system (turns : list wire) :
  List.Forall (fun msg => Backend.is_system msg = false) turns ->
  List.filter (fun msg => negb (Backend.is_system msg)) turns = turns
  /\ List.filter Backend.is_system turns = [].
Proof.
  induction 1 as [|msg turns Hmsg _ [IH1 IH2]]; [split; reflexivity|].
  cbn [List.filter]. rewrite Hmsg. cbn [negb]. now rewrite IH1, IH2.
Qed.

(** X11.  For an agent of the Anthropic variant, every working list
    made of the seed and of turns appended to it is sent with the
    agent's system prompt in [system] (the prompt is never empty, so the
    field is never left out) and with all the other messages, in order,
    in [messages], provided the session's history holds no message of
    role [system]. *)
Theorem anthropic_body_of_working_list (number_is_zero : string -> bool)
    (self : GradientAgent.t) (message : json) (session : Session.t) (appended : list wire) :
  is_anthropic self = true ->
  List.Forall (fun m => Message.role m <> "system") (Session.history session) ->
  List.Forall (fun msg => Backend.is_system msg = false) appended ->
  Backend.request_body number_is_zero (call_of self (seed self message session ++ appended))
  = {| Backend.body_model := model self;
       Backend.body_messages :=
         Session.get_messages_dict session ++ [user_turn message] ++ appended;
       Backend.body_max_tokens := 2000;
       Backend.body_system := Some (JStr (_build_system_prompt self)) |}.
Proof.
  intros Hvariant Hhistory Happended.
  assert (Hturns : List.Forall (fun msg => Backend.is_system msg = false)
                     (Session.get_messages_dict session ++ [user_turn message] ++ appended)).
  { apply List.Forall_app. split.
    - unfold Session.get_messages_dict. apply List.Forall_map.
      eapply List.Forall_impl; [|exact Hhistory].
      intros m Hm. unfold Backend.is_system. cbn [Message.to_dict wire_role].
      now apply String.eqb_neq.
    - apply List.Forall_cons; [reflexivity|exact Happended]. }
  destruct (filter_none_system _ Hturns) as [Hkeep Hdrop].
  unfold Backend.request_body, call_of. cbn [call_anthropic call_messages call_model call_max_tokens].
  rewrite Hvariant. unfold Backend.split_system, seed.
  rewrite <- !app_assoc.
  change ([Wire "system" (JStr (_build_system_prompt self))]
            ++ Session.get_messages_dict session ++ [user_turn message] ++ appended)
    with (Wire "system" (JStr (_build_system_prompt self))
            :: (Session.get_messages_dict session ++ [user_turn message] ++ appended)).
  rewrite split_system_from. cbn [List.filter Backend.is_system wire_role String.eqb Ascii.eqb Bool.eqb negb].
  change (Backend.is_system (Wire "system" (JStr (_build_system_prompt self)))) with true.
  cbn [negb map wire_content]. rewrite Hkeep, Hdrop. cbn [app map last Backend.truthy].
  destruct (String.eqb_spec (_build_system_prompt self) "") as [Hempty|_];
    [now apply system_prompt_nonempty in Hempty|reflexivity].
Qed.

Lemma anthropic_body_of_working_list_witness :
  let claude :=
    GradientAgent.init "Writer" "anthropic-claude-3.7-sonnet" "Writes." "Write well." [] [] in
  Backend.request_body (fun _ => false)
    (call_of claude (seed claude (JStr "hi") Scenario.session ++ []))
  = {| Backend.body_model := "claude-3-7-sonnet-20241022";
       Backend.body_messages := [user_turn (JStr "hi")];
       Backend.body_max_tokens := 2000;
       Backend.body_system := Some (JStr (_build_system_prompt claude)) |}.
Proof.
  intros claude.
  apply (anthropic_body_of_working_list (fun _ => false) claude (JStr "hi")
           Scenario.session []).
  - reflexivity.
  - apply List.Forall_nil.
  - apply List.Forall_nil.
Defined.

(** ** The schema of a tool *)

Lemma dict_get_set_eq (key : string) (v : json) (members : list (string * json)) :
  dict_get key (dict_set key v members) = Some v.
Proof.
  induction members as [|[k w] members IH]; cbn [dict_set dict_get].
  - now rewrite String.eqb_refl.
  - destruct (String.eqb k key) eqn:Hk; cbn [dict_get]; rewrite Hk; [reflexivity|exact IH].
Qed.

Lemma dict_get_set_ne (key other : string) (v : json) (members : list (string * json)) :
  key <> other ->
  dict_get other (dict_set key v members) = dict_get other members.
Proof.
  intros Hne. induction members as [|[k w] members IH]; cbn [dict_set dict_get].
  - now apply String.eqb_neq in Hne as ->.
  - destruct (String.eqb_spec k key) as [->|Hk]; cbn [dict_get].
    + now apply String.eqb_neq in Hne as ->.
    + now rewrite IH.
Qed.

Lemma declare_keeps_schema_ok (done : list Schema.parameter) (p : Schema.parameter)
    (st : list (string * json) * list string) :
  schema_ok done st -> schema_ok (done ++ [p]) (Schema.declare st p).
Proof.
  intros (Hall & Hreq & Hprop). unfold schema_ok, Schema.declare.
  destruct (String.eqb_spec (Schema.param_name p) "self") as [Hself|Hself].
  - split; [|split].
    + intros q Hin Hq. apply in_app_or in Hin as [Hin|[<-|[]]]; [now apply Hall|contradiction].
    + intros n Hn. destruct (Hreq n Hn) as (H1 & q & Hq & H2). split; [exact H1|].
      exists q. split; [apply in_or_app; now left|exact H2].
    + intros n v Hget. destruct (Hprop n v Hget) as (H1 & q & Hq & H2). split; [exact H1|].
      exists q. split; [apply in_or_app; now left|exact H2].
  - cbn [fst snd]. split; [|split].
    + intros q Hin Hq. unfold dict_has.
      destruct (String.eqb_spec (Schema.param_name p) (Schema.param_name q)) as [Heq|Hne].
      * rewrite <- Heq, dict_get_set_eq. split; [reflexivity|].
        intros Hdefault. apply in_app_or in Hin as [Hin|[<-|[]]].
        -- destruct (Hall q Hin Hq) as [_ Hq']. specialize (Hq' Hdefault).
           rewrite Heq. destruct (Schema.param_has_default p); [exact Hq'|].
           apply in_or_app. now left.
        -- rewrite Hdefault. apply in_or_app. right. now left.
      * rewrite dict_get_set_ne by exact Hne.
        apply in_app_or in Hin as [Hin|[<-|[]]]; [|contradiction].
        destruct (Hall q Hin Hq) as [Hhas Hq']. unfold dict_has in Hhas. split; [exact Hhas|].
        intros Hdefault. specialize (Hq' Hdefault).
        destruct (Schema.param_has_default p); [exact Hq'|]. apply in_or_app. now left.
    + intros n Hn.
      assert (Hcases : In n (snd st)
                       \/ (n = Schema.param_name p /\ Schema.param_has_default p = false)).
      { destruct (Schema.param_has_default p); [now left|].
        apply in_app_or in Hn as [Hn|[<-|[]]]; [now left|now right]. }
      destruct Hcases as [Hold|[-> Hdefault]].
      * destruct (Hreq n Hold) as (Hhas & q & Hq & H2). split.
        -- unfold dict_has in *.
           destruct (String.eqb_spec (Schema.param_name p) n) as [->|Hne];
             [now rewrite dict_get_set_eq|now rewrite dict_get_set_ne].
        -- exists q. split; [apply in_or_app; now left|exact H2].
      * split; [unfold dict_has; now rewrite dict_get_set_eq|].
        exists p. split; [apply in_or_app; right; now left|now split].
    + intros n v Hget.
      destruct (String.eqb_spec (Schema.param_name p) n) as [<-|Hne].
      * rewrite dict_get_set_eq in Hget. injection Hget as <-. split; [exact Hself|].
        exists p. split; [apply in_or_app; right; now left|now split].
      * rewrite dict_get_set_ne in Hget by exact Hne.
        destruct (Hprop n v Hget) as (H1 & q & Hq & H2). split; [exact H1|].
        exists q. split; [apply in_or_app; now left|exact H2].
Qed.

Lemma derive_schema_ok (signature : list Schema.parameter) :
  schema_ok signature (Schema.derive signature).
Proof.
  unfold Schema.derive. induction signature as [|p signature IH] using rev_ind.
  - split; [|split]; cbn; [intros p []|intros n []|discriminate].
  - rewrite foldl_snoc. now apply declare_keeps_schema_ok.
Qed.

Lemma same_name_same_parameter (signature : list Schema.parameter)
    (p q : Schema.parameter) :
  List.NoDup (map Schema.param_name signature) ->
  In p signature -> In q signature -> Schema.param_name p = Schema.param_name q -> p = q.
Proof.
  induction signature as [|x signature IH]; [intros _ []|].
  cbn [map]. intros Hnodup Hp Hq Hname.
  apply List.NoDup_cons_iff in Hnodup as [Hfresh Hnodup].
  destruct Hp as [->|Hp], Hq as [->|Hq].
  - reflexivity.
  - destruct Hfresh. rewrite Hname. now apply in_map.
  - destruct Hfresh. rewrite <- Hname. now apply in_map.
  - now apply IH.
Qed.

(** X12.  In the schema derived from a signature, every parameter but
    [self] is declared and those without a default are listed as
    required; every required name is a declared parameter without a
    default; what is declared under a name is the type and the
    description of a parameter of that name, the type being [integer]
    for an annotation [int], [boolean] for [bool], [number] for [float]
    and [string] for any other annotation and for none; under distinct
    names, as in a signature, it is that of the parameter itself; and
    [self] is neither declared nor required. *)
Theorem derived_schema_is_consistent (signature : list Schema.parameter) :
  let '(properties, required) := Schema.derive signature in
  let declared (p : Schema.parameter) :=
    JObj [("type",
           JStr match Schema.param_annotation p with
                | Schema.AnnInt => "integer"
                | Schema.AnnBool => "boolean"
                | Schema.AnnFloat => "number"
                | Schema.Unannotated | Schema.AnnOther => "string"
                end);
          ("description", JStr ("Parameter " +:+ Schema.param_name p))] in
  (forall p, In p signature -> Schema.param_name p <> "self" ->
             dict_has (Schema.param_name p) properties = true
             /\ (Schema.param_has_default p = false -> In (Schema.param_name p) required))
  /\ (forall n, In n required ->
                dict_has n properties = true
                /\ exists p, In p signature /\ Schema.param_name p = n
                             /\ Schema.param_has_default p = false)
  /\ (forall n v, dict_get n properties = Some v ->
                  exists p, In p signature /\ Schema.param_name p = n /\ v = declared p)
  /\ (List.NoDup (map Schema.param_name signature) ->
      forall p, In p signature -> Schema.param_name p <> "self" ->
                dict_get (Schema.param_name p) properties = Some (declared p))
  /\ dict_has "self" properties = false
  /\ ~ In "self" required.
Proof.
  pose proof (derive_schema_ok signature) as (Hall & Hreq & Hprop).
  destruct (Schema.derive signature) as [properties required]. cbn [fst snd] in *.
  pose (declared := fun p : Schema.parameter =>
          JObj [("type",
                 JStr match Schema.param_annotation p with
                      | Schema.AnnInt => "integer"
                      | Schema.AnnBool => "boolean"
                      | Schema.AnnFloat => "number"
                      | Schema.Unannotated | Schema.AnnOther => "string"
                      end);
                ("description", JStr ("Parameter " +:+ Schema.param_name p))]).
  assert (Hdeclared : forall n v, dict_get n properties = Some v ->
                        exists p, In p signature /\ Schema.param_name p = n
                                  /\ v = declared p).
  { intros n v Hget. destruct (Hprop n v Hget) as (_ & p & Hin & Hname & ->).
    exists p. split; [exact Hin|]. split; [exact Hname|]. reflexivity. }
  split; [exact Hall|]. split; [exact Hreq|]. split; [exact Hdeclared|]. split; [|split].
  - intros Hnodup p Hin Hself. destruct (Hall p Hin Hself) as [Hhas _].
    unfold dict_has in Hhas.
    destruct (dict_get (Schema.param_name p) properties) as [v|] eqn:Hget; [|discriminate].
    destruct (Hdeclared _ _ Hget) as (q & Hq & Hname & ->).
    now rewrite (same_name_same_parameter signature q p Hnodup Hq Hin Hname).
  - unfold dict_has. destruct (dict_get "self" properties) as [v|] eqn:Hget; [|reflexivity].
    now destruct (Hprop _ _ Hget).
  - intros Hin. destruct (Hreq _ Hin) as [Hhas _]. unfold dict_has in Hhas.
    destruct (dict_get "self" properties) as [v|] eqn:Hget; [|discriminate].
    now destruct (Hprop _ _ Hget).
Qed.

(** The schema of [def query(self, table, limit: int = 10, exact: bool = False,
    score: float = 0.5)]. *)
Lemma derived_schema_is_consistent_witness :
  let parameter := fun name annotation has_default =>
    {| Schema.param_name := name; Schema.param_annotation := annotation;
       Schema.param_has_default := has_default |} in
  let signature :=
    [parameter "self" Schema.Unannotated false;
     parameter "table" Schema.Unannotated false;
     parameter "limit" Schema.AnnInt true;
     parameter "exact" Schema.AnnBool true;
     parameter "score" Schema.AnnFloat true] in
  dict_get "exact" (fst (Schema.derive signature))
  = Some (JObj [("type", JStr "boolean"); ("description", JStr "Parameter exact")])
  /\ dict_get "score" (fst (Schema.derive signature))
     = Some (JObj [("type", JStr "number"); ("description", JStr "Parameter score")])
  /\ dict_has "self" (fst (Schema.derive signature)) = false
  /\ snd (Schema.derive signature) = ["table"].
Proof.
  intros parameter signature.
  pose proof (derived_schema_is_consistent signature) as H.
  destruct (Schema.derive signature) as [properties required] eqn:Hderive.
  cbv zeta in H. destruct H as (_ & _ & _ & Hdeclared & Hself & _).
  assert (Hnames : List.NoDup (map Schema.param_name signature)).
  { repeat constructor; cbn; intuition discriminate. }
  cbn [fst snd]. split; [|split; [|split]].
  - apply (Hdeclared Hnames (parameter "exact" Schema.AnnBool true)); [|discriminate].
    cbn. tauto.
  - apply (Hdeclared Hnames (parameter "score" Schema.AnnFloat true)); [|discriminate].
    cbn. tauto.
  - exact Hself.
  - vm_compute in Hderive. now injection Hderive as _ <-.
Defined.

(** ** Tools made from functions *)

(** X13.  A tool made by [FunctionTool] never has an empty
    description: an absent or empty description falls back to the
    docstring, and an absent or empty docstring to ["Tool: <name>"]; an
    empty name argument falls back to the function's name; and
    executing the tool is calling the function. *)
Theorem function_tool_is_described (func : ToolAdapter.callable)
    (name description : option string) :
  let tool := ToolAdapter.FunctionTool func name description in
  Tool.description tool <> ""
  /\ (Tool.name tool = ToolAdapter.fn_name func
      \/ (Tool.name tool <> "" /\ name = Some (Tool.name tool)))
  /\ (description = None -> ToolAdapter.fn_doc func = None ->
      GradientAgent.tool_line tool
      = "- " +:+ Tool.name tool +:+ ": " +:+ "Tool: " +:+ Tool.name tool +:+ nl)
  /\ forall kwargs, Tool.execute tool kwargs = ToolAdapter.fn_call func kwargs.
Proof.
  cbv zeta. unfold ToolAdapter.FunctionTool.
  cbn [Tool.description Tool.name Tool.execute Tool.func].
  repeat split.
  - destruct description as [[|c d]|]; cbn [ToolAdapter.opt_or]; try discriminate;
      destruct (ToolAdapter.fn_doc func) as [[|c' d']|]; cbn [ToolAdapter.opt_or];
      try discriminate; apply append_nonempty_r;
      change ("Tool: " +:+ ToolAdapter.opt_or name (ToolAdapter.fn_name func))
        with (String "T" ("ool: " +:+ ToolAdapter.opt_or name (ToolAdapter.fn_name func)));
      discriminate.
  - destruct name as [[|c n]|]; cbn [ToolAdapter.opt_or]; [now left| |now left].
    right. split; [discriminate|reflexivity].
  - intros -> ->. reflexivity.
Qed.

Lemma function_tool_is_described_witness :
  let rag_query :=
    {| ToolAdapter.fn_name := "rag_query"; ToolAdapter.fn_doc := None;
       ToolAdapter.fn_call := fun _ => Ok (JObj [("matches", JArr [])]) |} in
  GradientAgent.tool_line (ToolAdapter.FunctionTool rag_query (Some "") None)
  = "- rag_query: Tool: rag_query" +:+ nl.
Proof.
  intros rag_query.
  apply (function_tool_is_described rag_query (Some "") None); reflexivity.
Defined.

(** ** The Cloudflare client *)

(** X14.  [build_cloudflare_context] returns the empty string exactly
    when the integration is not enabled, the search fails or the search
    finds no match; matches that carry no text still give the framing
    lines around an empty context, which the request handler prepends. *)
Theorem cloudflare_context_empty_iff (cfg : Cloudflare.Config)
    (search : res (list (option string))) :
  Cloudflare.build_cloudflare_context cfg search = ""
  <-> (Cloudflare.is_enabled cfg = false
       \/ (exists e, search = Raise e)
       \/ search = Ok []).
Proof.
  unfold Cloudflare.build_cloudflare_context.
  destruct (Cloudflare.is_enabled cfg); cbn [negb].
  2:{ split; [now left|reflexivity]. }
  destruct search as [[|m matches]|e].
  - split; [now (right; right)|reflexivity].
  - split.
    + rewrite append_cons. discriminate.
    + intros [H|[[e H]|H]]; discriminate H.
  - split; [right; left; now exists e|reflexivity].
Qed.

Lemma cloudflare_context_empty_iff_witness :
  let cfg :=
    {| Cloudflare.enabled := true; Cloudflare.endpoint := "https://worker.example/";
       Cloudflare.api_token := "token"; Cloudflare.default_model := "m";
       Cloudflare.rag_top_k := 5 |} in
  Cloudflare.build_cloudflare_context cfg (Ok [None]) <> ""
  /\ Cloudflare.build_cloudflare_context cfg (Ok []) = "".
Proof.
  intros cfg. split.
  - intros Hempty.
    apply (proj1 (cloudflare_context_empty_iff cfg (Ok [None]))) in Hempty
      as [H|[[e H]|H]]; discriminate H.
  - apply (proj2 (cloudflare_context_empty_iff cfg (Ok []))). now (right; right).
Defined.

Lemma prefix_append (p s : string) : String.prefix p (p +:+ s) = true.
Proof.
  induction p as [|c p IH]; [now destruct s|].
  rewrite append_cons. cbn [String.prefix].
  destruct (ascii_dec c c) as [_|Hne]; [exact IH|now destruct Hne].
Qed.

Lemma substring_all (s : string) : String.substring 0 (String.length s) s = s.
Proof. induction s as [|c s IH]; cbn; [reflexivity|now rewrite IH]. Qed.

Lemma drop_prefix (p s : string) :
  String.substring (String.length p) (String.length (p +:+ s) - String.length p) (p +:+ s) = s.
Proof.
  induction p as [|c p IH].
  - change (EmptyString +:+ s) with s. cbn [String.length].
    rewrite Nat.sub_0_r. apply substring_all.
  - rewrite append_cons. cbn [String.length String.substring Nat.sub]. exact IH.
Qed.

(** X15.  [stream_chat] yields the payloads of the [data: ] lines that
    come before the line whose payload reads [[DONE]], in order; lines
    of another kind are skipped and whatever follows the [[DONE]] line
    is dropped. *)
Theorem stream_stops_at_done (rt : Runtime) (before after : list string) (payload : string) :
  str_strip rt payload = "[DONE]" ->
  List.Forall (fun line =>
                 str_strip rt (String.substring 6 (String.length line - 6) line) <> "[DONE]")
              (List.filter (String.prefix "data: ") before) ->
  Cloudflare.stream_chat rt (before ++ ("data: " +:+ payload) :: after)
  = map (fun line => String.substring 6 (String.length line - 6) line)
        (List.filter (String.prefix "data: ") before).
Proof.
  intros Hdone. induction before as [|line before IH]; intros Hbefore.
  - cbn [app Cloudflare.stream_chat]. rewrite prefix_append.
    change 6 with (String.length "data: ").
    now rewrite drop_prefix, Hdone.
  - cbn [app Cloudflare.stream_chat List.filter] in *.
    destruct (String.prefix "data: " line); [|now apply IH].
    apply List.Forall_cons_iff in Hbefore as [Hline Hbefore].
    apply String.eqb_neq in Hline. rewrite Hline. cbn [map]. now rewrite IH.
Qed.

Lemma stream_stops_at_done_witness :
  Cloudflare.stream_chat CPython.runtime
    (["event: message"; "data: Hel"; "data: lo"] ++ ("data: " +:+ " [DONE] ") :: ["data: late"])
  = ["Hel"; "lo"].
Proof.
  apply (stream_stops_at_done CPython.runtime
           ["event: message"; "data: Hel"; "data: lo"] ["data: late"] " [DONE] ").
  - vm_compute. reflexivity.
  - repeat constructor; vm_compute; discriminate.
Defined.

(** ** The request handler *)

Lemma handler_unfolded (rt : Runtime) (world : World) (runner : InMemoryRunner.t)
    (request : Route.AgentRequest) (tr : trace) :
  let out := Route.process_agent_request rt world (Some runner) request tr in
  let run := handled_run rt world runner request tr in
  fst (fst out)
  = match fst run with
    | Ok answer =>
        Route.Returned
          {| Route.response := Route.str_or answer "No response generated";
             Route.response_session_id := resolved_session_id world request;
             Route.event_count := 1 |}
    | Raise e => Route.HTTPException 500 (exn_str rt e)
    end
  /\ snd out = snd run.
Proof.
  cbv zeta. unfold Route.process_agent_request, handled_run, handled_text,
    resolved_session_id, InMemoryRunner.run_async, run_async, extract_text, bind.
  cbn [InMemoryRunner.agent foldl].
  change (EmptyString +:+ ?x) with x.
  destruct (_process_message rt world (InMemoryRunner.agent runner) _ _ tr)
    as [[answer|e] tr']; cbn [fst snd ret]; split; reflexivity.
Qed.


(** X17.  The handler never answers with an empty response and never
    with a status other than 500 when a runner is in place; without a
    runner it answers 503 and reaches no backend. *)
Theorem handler_outcomes (rt : Runtime) (world : World)
    (arrow_runner : option InMemoryRunner.t) (request : Route.AgentRequest) (tr : trace) :
  let out := Route.process_agent_request rt world arrow_runner request tr in
  match arrow_runner, fst (fst out) with
  | Some _, Route.Returned r =>
      Route.response r <> ""
      /\ Route.event_count r = 1
      /\ Route.response_session_id r = resolved_session_id world request
  | Some _, Route.HTTPException status _ => status = 500
  | None, Route.Returned _ => False
  | None, Route.HTTPException status _ => status = 503 /\ snd out = tr
  end.
Proof.
  cbv zeta. destruct arrow_runner as [runner|]; [|now split].
  destruct (handler_unfolded rt world runner request tr) as [-> _].
  destruct (fst (handled_run rt world runner request tr)) as [answer|e]; [|reflexivity].
  cbn [Route.response Route.event_count Route.response_session_id].
  repeat split. destruct answer; discriminate.
Qed.

(** X18.  On the session store the handler does one thing: it creates
    the session of the request, with an empty history, when the store
    has none under its key.  A session already stored and the sessions
    under all other keys are left as they are, and the agent and the
    application name of the runner stay the same. *)
Theorem handler_store_effect (rt : Runtime) (world : World) (runner : InMemoryRunner.t)
    (request : Route.AgentRequest) (tr : trace) :
  let app := InMemoryRunner.app_name runner in
  let sid := resolved_session_id world request in
  let stored := SessionService.sessions (InMemoryRunner.session_service runner) in
  exists runner',
    snd (fst (Route.process_agent_request rt world (Some runner) request tr)) = Some runner'
    /\ InMemoryRunner.agent runner' = InMemoryRunner.agent runner
    /\ InMemoryRunner.app_name runner' = app
    /\ forall key,
        SessionService.sessions (InMemoryRunner.session_service runner') !! key
        = if decide (key = SessionService.key app "default_user" sid)
          then Some (default (Session.new sid "default_user" app) (stored !! key))
          else stored !! key.
Proof.
  cbv zeta. unfold Route.process_agent_request, resolved_session_id.
  set (sid := Route.str_or _ _). set (app := InMemoryRunner.app_name runner).
  unfold SessionService.get_session, SessionService.create_session.
  destruct (InMemoryRunner.run_async _ _ _ _ _ _ _) as [[events|e] tr'];
    cbn [fst snd]; eexists; (split; [reflexivity|]);
    cbn [InMemoryRunner.agent InMemoryRunner.app_name InMemoryRunner.session_service];
    (split; [reflexivity|]); (split; [reflexivity|]); intros key;
    destruct (SessionService.sessions (InMemoryRunner.session_service runner)
                !! SessionService.key app "default_user" sid) as [s0|] eqn:Hstored;
    cbn [snd SessionService.sessions]; case_decide as Hkey; subst;
    rewrite ?Hstored; cbn [default];
    rewrite ?lookup_insert_eq, ?lookup_insert_ne by congruence; reflexivity.
Qed.

(** ** The legacy endpoint *)

(** X19.  [process_query] never answers 503: the exception of the
    handler is caught like any other and raised again as 500, its
    detail being the text of that exception, so that a missing runner
    shows as a server error.  When the handler returns, the endpoint
    passes its response on; the query goes in as the message, a
    non-empty selected text as one context part, and no session id. *)
Theorem legacy_endpoint_outcomes (rt : Runtime) (world : World)
    (http_str : nat -> string -> string) (arrow_runner : option InMemoryRunner.t)
    (query selected_text : option string) (tr : trace) :
  let request :=
    {| Route.message := default "" query;
       Route.context_parts :=
         match selected_text with
         | Some (String c rest) => Some [Some ("Selected text: " +:+ String c rest)]
         | Some EmptyString | None => None
         end;
       Route.session_id := None |} in
  let inner := Route.process_agent_request rt world arrow_runner request tr in
  let out := Legacy.process_query rt world http_str arrow_runner query selected_text tr in
  match fst (fst out) with
  | Legacy.Success response =>
      response <> "" /\ exists r, fst (fst inner) = Route.Returned r /\ Route.response r = response
  | Legacy.HTTPException status detail =>
      status = 500
      /\ (arrow_runner = None -> detail = http_str 503 "Arrow backend not available")
      /\ (arrow_runner <> None ->
          exists e, detail = http_str 500 (exn_str rt e))
  end
  /\ snd out = snd inner.
Proof.
  cbv zeta. unfold Legacy.process_query.
  set (request := {| Route.message := default "" query |}).
  destruct arrow_runner as [runner|].
  - destruct (handler_unfolded rt world runner request tr) as [Hfst _].
    destruct (Route.process_agent_request rt world (Some runner) request tr)
      as [[inner runner'] tr'].
    cbn [fst snd] in *.
    destruct (fst (handled_run rt world runner request tr)) as [answer|e]; subst inner;
      cbn [fst snd Route.response]; (split; [|reflexivity]).
    + split; [destruct answer; discriminate|]. eexists. split; reflexivity.
    + split; [reflexivity|]. split; [intros [=]|]. intros _. now exists e.
  - cbn. split; [|reflexivity]. split; [reflexivity|]. split; [reflexivity|]. now intros [].
Qed.

Lemma legacy_endpoint_outcomes_witness :
  let http_str := fun (status : nat) (detail : string) =>
    (if Nat.eqb status 503 then "503" else "500") +:+ ": " +:+ detail in
  let out :=
    Legacy.process_query CPython.runtime (Scenario.scripted [] (Failure "eof")) http_str
      None (Some "hi") None [] in
  exists detail,
    fst (fst out) = Legacy.HTTPException 500 detail
    /\ detail = "503: Arrow backend not available".
Proof.
  intros http_str out.
  destruct (legacy_endpoint_outcomes CPython.runtime (Scenario.scripted [] (Failure "eof"))
              http_str None (Some "hi") None []) as [H _].
  cbn in H. destruct H as (_ & Hdetail & _).
  eexists. split; [reflexivity|]. exact (Hdetail eq_refl).
Defined.

(** ** Reloading the Tadata tools *)

(** X20.  The reload rewrites the list of tools and leaves the registry
    as it was built at construction: every call of a tool does after
    the reload what it did before.  So a Tadata tool that the reload
    adds is listed for the model and yet not found when called, and a
    tool whose name contains one of the server names is dropped from the
    list whatever it is. *)
Theorem reload_leaves_registry_stale (rt : Runtime) (configured : bool)
    (tadata_tools : list Tool.t) (coordinator : GradientAgent.t) (tool : Tool.t) :
  let reloaded := Tadata.reload_tools configured tadata_tools coordinator in
  (forall tool_name arguments tr,
      _handle_tool_call rt reloaded tool_name arguments tr
      = _handle_tool_call rt coordinator tool_name arguments tr)
  /\ (configured = true -> In tool tadata_tools ->
      tools_map coordinator !! Tool.name tool = None ->
      In tool (tools reloaded)
      /\ forall arguments tr,
          _handle_tool_call rt reloaded (JStr (Tool.name tool)) arguments tr
          = (Ok ("Error: Tool '" +:+ Tool.name tool +:+ "' not found"), tr))
  /\ (Tadata.is_tadata_tool tool = true -> ~ In tool tadata_tools ->
      ~ In tool (tools reloaded)).
Proof.
  cbv zeta.
  assert (Hsame : forall tool_name arguments tr,
             _handle_tool_call rt (Tadata.reload_tools configured tadata_tools coordinator)
               tool_name arguments tr
             = _handle_tool_call rt coordinator tool_name arguments tr) by reflexivity.
  split; [exact Hsame|]. split.
  - intros -> Hin Hmissing. split.
    + unfold Tadata.reload_tools. cbn [tools]. apply in_or_app. now right.
    + intros arguments tr. rewrite Hsame, handle_tool_call_named.
      unfold tool_result_text. now rewrite Hmissing.
  - intros Htadata Hnot Hin. unfold Tadata.reload_tools in Hin. cbn [tools] in Hin.
    assert (Hkept : ~ In tool (List.filter (fun t => negb (Tadata.is_tadata_tool t))
                                 (tools coordinator))).
    { intros Hk. apply filter_In in Hk as [_ Hk]. now rewrite Htadata in Hk. }
    destruct configured; [apply in_app_or in Hin as [Hin|Hin]|]; contradiction.
Qed.

Lemma reload_leaves_registry_stale_witness :
  let notion_fetch :=
    Tool.mk "notion_notion-fetch" "Fetches a page." (fun _ => Ok (JStr "page")) in
  let reloaded := Tadata.reload_tools true [notion_fetch] Scenario.root in
  In notion_fetch (tools reloaded)
  /\ _handle_tool_call CPython.runtime reloaded (JStr "notion_notion-fetch") (JObj []) []
     = (Ok "Error: Tool 'notion_notion-fetch' not found", []).
Proof.
  intros notion_fetch reloaded.
  destruct (reload_leaves_registry_stale CPython.runtime true [notion_fetch] Scenario.root
              notion_fetch) as (_ & Hlisted & _).
  destruct Hlisted as [Hin Hcall]; [reflexivity|now left|vm_compute; reflexivity|].
  split; [exact Hin|apply Hcall].
Defined.

Lemma filter_filter_same {A} (f : A -> bool) (l : list A) :
  List.filter f (List.filter f l) = List.filter f l.
Proof.
  induction l as [|x l IH]; [reflexivity|]. cbn [List.filter].
  destruct (f x) eqn:Hx; [|exact IH]. cbn [List.filter]. now rewrite Hx, IH.
Qed.

Lemma filter_nothing {A} (f : A -> bool) (l : list A) :
  List.Forall (fun x => f x = false) l -> List.filter f l = [].
Proof.
  induction 1 as [|x l Hx _ IH]; [reflexivity|]. cbn [List.filter]. now rewrite Hx.
Qed.

(** X21.  Reloading twice with the same Tadata tools gives what
    reloading once gives, provided each of those tools has one of the
    server names in its name: the first step of a reload then removes
    exactly what the previous reload added. *)
Theorem reload_is_idempotent (configured : bool) (tadata_tools : list Tool.t)
    (coordinator : GradientAgent.t) :
  List.Forall (fun tool => Tadata.is_tadata_tool tool = true) tadata_tools ->
  Tadata.reload_tools configured tadata_tools
    (Tadata.reload_tools configured tadata_tools coordinator)
  = Tadata.reload_tools configured tadata_tools coordinator.
Proof.
  intros Hnames. unfold Tadata.reload_tools.
  cbn [tools name model description instruction sub_agents is_anthropic tools_map].
  f_equal. destruct configured; [|apply filter_filter_same].
  rewrite List.filter_app, filter_filter_same.
  rewrite (filter_nothing _ tadata_tools); [now rewrite app_nil_r|].
  eapply List.Forall_impl; [|exact Hnames]. intros tool Htool. now rewrite Htool.
Qed.

Lemma reload_is_idempotent_witness :
  let notion_fetch :=
    Tool.mk "notion_notion-fetch" "Fetches a page." (fun _ => Ok (JStr "page")) in
  map Tool.name
    (tools (Tadata.reload_tools true [notion_fetch]
              (Tadata.reload_tools true [notion_fetch] Scenario.root)))
  = ["echo"; "failing"; "notion_notion-fetch"].
Proof.
  intros notion_fetch.
  rewrite (reload_is_idempotent true [notion_fetch] Scenario.root).
  - reflexivity.
  - apply List.Forall_cons; [reflexivity|apply List.Forall_nil].
Defined.

(** ** [run_async] *)

(** X22.  When [run_async] ends without raising it has yielded one
    event with one part, the final answer, and the session object it
    made for the call holds the user message and then the answer and
    nothing else, whatever happened in between. *)
Theorem run_async_yields_one_event (rt : Runtime) (world : World) (self : GradientAgent.t)
    (user_id session_id : string) (new_message : option (list (option string)))
    (tr : trace) (events : list ResponseEvent) (session : Session.t) (tr' : trace) :
  run_async rt world self user_id session_id new_message tr = (Ok (events, session), tr') ->
  exists answer,
    _process_message rt world self (JStr (extract_text rt new_message))
      (Session.add_message "user" (extract_text rt new_message)
         (Session.new session_id user_id (name self))) tr
    = (Ok answer, tr')
    /\ events = [{| event_parts := [answer] |}]
    /\ session
       = Session.mk session_id user_id (name self)
           [Message.mk "user" (extract_text rt new_message);
            Message.mk "assistant" answer].
Proof.
  unfold run_async, bind.
  destruct (_process_message _ _ _ _ _ _) as [[answer|e] tr1]; [|discriminate].
  intros Heq. injection Heq as <- <- <-. now exists answer.
Qed.

Lemma run_async_yields_one_event_witness :
  exists answer,
    _process_message CPython.runtime (Scenario.scripted [Completion "hello"] (Failure "eof"))
      Scenario.root (JStr "hi")
      (Session.add_message "user" "hi" (Session.new "s1" "default_user" "arrow_agent")) []
    = (Ok answer,
       snd (run_async CPython.runtime (Scenario.scripted [Completion "hello"] (Failure "eof"))
              Scenario.root "default_user" "s1" (Some [Some " hi "]) []))
    /\ [{| event_parts := ["hello"] |}] = [{| event_parts := [answer] |}]
    /\ Session.mk "s1" "default_user" "arrow_agent"
         [Message.mk "user" "hi"; Message.mk "assistant" "hello"]
       = Session.mk "s1" "default_user" "arrow_agent"
           [Message.mk "user" "hi"; Message.mk "assistant" answer].
Proof.
  apply (run_async_yields_one_event CPython.runtime
           (Scenario.scripted [Completion "hello"] (Failure "eof")) Scenario.root
           "default_user" "s1" (Some [Some " hi "]) []).
  vm_compute. reflexivity.
Defined.

(** ** Constructing an agent *)

Lemma index_none_step (old : string) (c : ascii) (s : string) :
  String.index 0 old (String c s) = None ->
  String.prefix old (String c s) = false /\ String.index 0 old s = None.
Proof.
  cbn [String.index]. destruct (String.prefix old (String c s)); [discriminate|].
  destruct (String.index 0 old s); [discriminate|]. now split.
Qed.

Lemma replace_absent (old new s : string) :
  str_contains old s = false -> str_replace old new s = s.
Proof.
  unfold str_contains, str_replace. intros Habsent.
  assert (Hnone : String.index 0 old s = None)
    by (destruct (String.index 0 old s); [discriminate|reflexivity]).
  clear Habsent. induction s as [|c s IH]; [reflexivity|].
  apply index_none_step in Hnone as [Hprefix Hnone].
  cbn [str_replace_from]. rewrite Hprefix. now rewrite IH.
Qed.

Lemma replace_skips (old new : string) (n : nat) (p s : string) :
  String.length p = n ->
  str_replace_from old new n (p +:+ s) = str_replace_from old new 0 s.
Proof.
  revert p. induction n as [|n IH]; intros [|c p] Hlen; try discriminate; [reflexivity|].
  rewrite append_cons. cbn [str_replace_from]. apply IH. now injection Hlen.
Qed.

(** X23.  How [__init__] picks the API variant and the model: a model
    that starts with neither [anthropic-] nor [claude-] is kept as it is,
    for the generic variant; for the Anthropic variant a name with [3.7]
    or [3-7] in it becomes [claude-3-7-sonnet-20241022], and any other
    name [anthropic-<rest>] becomes [<rest>] when [<rest>] holds no
    further [anthropic-]. *)
Theorem init_selects_variant_and_model (name model description instruction : string)
    (tools : list Tool.t) (sub_agents : list GradientAgent.t) :
  let agent := GradientAgent.init name model description instruction tools sub_agents in
  (String.prefix "anthropic-" model = false -> String.prefix "claude-" model = false ->
   GradientAgent.is_anthropic agent = false /\ GradientAgent.model agent = model)
  /\ (GradientAgent.is_anthropic agent = true ->
      str_contains "3.7" model || str_contains "3-7" model = true ->
      GradientAgent.model agent = "claude-3-7-sonnet-20241022")
  /\ (forall rest,
        model = "anthropic-" +:+ rest ->
        str_contains "3.7" model || str_contains "3-7" model = false ->
        str_contains "anthropic-" rest = false ->
        GradientAgent.is_anthropic agent = true /\ GradientAgent.model agent = rest).
Proof.
  cbv zeta. unfold GradientAgent.init. cbn [GradientAgent.is_anthropic GradientAgent.model].
  split; [|split].
  - intros -> ->. now split.
  - intros -> ->. reflexivity.
  - intros rest -> -> Hrest. rewrite prefix_append. cbn [orb]. split; [reflexivity|].
    unfold str_replace. change ("anthropic-" +:+ rest) with (String "a" ("nthropic-" +:+ rest)).
    cbn [str_replace_from].
    change (String "a" ("nthropic-" +:+ rest)) with ("anthropic-" +:+ rest).
    rewrite prefix_append. change (EmptyString +:+ ?x) with x.
    rewrite (replace_skips "anthropic-" "" _ "nthropic-" rest) by reflexivity.
    now apply replace_absent.
Qed.

Lemma init_selects_variant_and_model_witness :
  let agent :=
    GradientAgent.init "Writer" "anthropic-claude-3-5-haiku" "Writes." "Write well." [] [] in
  GradientAgent.is_anthropic agent = true /\ GradientAgent.model agent = "claude-3-5-haiku".
Proof.
  intros agent.
  apply (init_selects_variant_and_model "Writer" "anthropic-claude-3-5-haiku" "Writes."
           "Write well." [] []); reflexivity.
Defined.

(** ** Arguments that cannot be passed *)

(** X24.  When the tool is registered but the arguments of the envelope
    are not an object, or are an object with a key [self], the call is
    refused before the tool's function runs: the result is the error
    text of the interpreter's fault, whatever the function would do. *)
Theorem unpassable_arguments_are_reported (rt : Runtime) (self : GradientAgent.t)
    (tool_name : string) (tool : Tool.t) (arguments : json) (tr : trace) :
  tools_map self !! tool_name = Some tool ->
  match arguments with
  | JObj kwargs => dict_has "self" kwargs = true
  | _ => True
  end ->
  _handle_tool_call rt self (JStr tool_name) arguments tr
  = (Ok ("Error executing tool: "
         +:+ fault_message rt
               match arguments with
               | JObj _ => MultipleValues "self"
               | _ => NotAMapping arguments
               end), tr).
Proof.
  intros Hfound Hbad. rewrite handle_tool_call_named. unfold tool_result_text.
  rewrite Hfound. destruct arguments; cbn [Tool.call_execute]; try reflexivity.
  now rewrite Hbad.
Qed.

Lemma unpassable_arguments_are_reported_witness :
  _handle_tool_call CPython.runtime Scenario.root (JStr "echo") JNull []
  = (Ok "Error executing tool: gradient_agent.Tool.execute() argument after ** must be a mapping, not NoneType", []).
Proof.
  apply (unpassable_arguments_are_reported CPython.runtime Scenario.root "echo" Scenario.echo
           JNull []); [vm_compute; reflexivity|exact I].
Defined.

(** ** The knowledge base *)

Section TinyStoreFacts.
Variable vector : Type.

Lemma empty_same_ids (rows : gmap string (TinyStore.Doc vector)) :
  rows = ∅ -> TinyStore.same_ids vector (TinyStore.mk vector [] rows).
Proof.
  intros -> id. cbn [TinyStore.docs TinyStore.rows]. rewrite lookup_empty.
  split; [now intros (d & [] & _)|now intros [x Hx]].
Qed.

Lemma add_same_ids (self : TinyStore.t vector) now id text vec source filename metadata :
  TinyStore.same_ids vector self ->
  TinyStore.same_ids vector
    (snd (TinyStore.add vector TinyStore.Executed now id text vec source filename
            metadata self)).
Proof.
  intros Hsame id0. unfold TinyStore.add. cbn [snd TinyStore.docs TinyStore.rows].
  destruct (decide (id = id0)) as [<-|Hne].
  - rewrite lookup_insert_eq. split; [eauto|]. intros _.
    eexists. split; [apply in_or_app; right; now left|reflexivity].
  - rewrite lookup_insert_ne by exact Hne. rewrite <- (Hsame id0). split.
    + intros (d & Hin & Hid). apply in_app_or in Hin as [Hin|[<-|[]]]; [eauto|].
      cbn in Hid. contradiction.
    + intros (d & Hin & Hid). exists d. split; [apply in_or_app; now left|exact Hid].
Qed.

Lemma delete_same_ids (self : TinyStore.t vector) id :
  TinyStore.same_ids vector self ->
  TinyStore.same_ids vector (snd (TinyStore.delete vector TinyStore.Executed id self)).
Proof.
  intros Hsame id0. unfold TinyStore.delete. cbn [snd TinyStore.docs TinyStore.rows].
  destruct (decide (id = id0)) as [<-|Hne].
  - rewrite lookup_delete_eq. split; [|now intros [x Hx]].
    intros (d & Hin & Hid). apply filter_In in Hin as [_ Hkeep].
    rewrite Hid, String.eqb_refl in Hkeep. discriminate.
  - rewrite lookup_delete_ne by exact Hne. rewrite <- (Hsame id0). split.
    + intros (d & Hin & Hid). apply filter_In in Hin as [Hin _]. eauto.
    + intros (d & Hin & Hid). exists d. split; [|exact Hid].
      apply filter_In. split; [exact Hin|]. rewrite Hid.
      apply negb_true_iff, String.eqb_neq. congruence.
Qed.

(** X25.  Memory and table hold the same document ids after every
    [add], [delete] and [clear] whose statement the database executes,
    if they did before.  They no longer do when the statement raises,
    because the list in memory is changed first: after such an [add] of
    a new id memory holds a document that the table lacks, after such a
    [delete] of a stored id, or such a [clear] of a table that is not
    empty, the table holds a row that memory lacks. *)
Theorem store_keeps_same_ids (self : TinyStore.t vector) :
  TinyStore.same_ids vector self ->
  (forall now id text vec source filename metadata,
      exists after,
        TinyStore.add vector TinyStore.Executed now id text vec source filename
          metadata self
        = (TinyStore.Returned tt, after)
        /\ TinyStore.same_ids vector after)
  /\ (forall id,
        exists deleted after,
          TinyStore.delete vector TinyStore.Executed id self
          = (TinyStore.Returned deleted, after)
          /\ TinyStore.same_ids vector after)
  /\ (exists after,
        TinyStore.clear vector TinyStore.Executed self = (TinyStore.Returned tt, after)
        /\ TinyStore.same_ids vector after)
  /\ (forall detail now id text vec source filename metadata,
        TinyStore.rows vector self !! id = None ->
        exists after,
          TinyStore.add vector (TinyStore.Refused detail) now id text vec source filename
            metadata self
          = (TinyStore.Raised detail, after)
          /\ (exists d, In d (TinyStore.docs vector after) /\ TinyStore.doc_id vector d = id)
          /\ TinyStore.rows vector after !! id = None
          /\ ~ TinyStore.same_ids vector after)
  /\ (forall detail id,
        is_Some (TinyStore.rows vector self !! id) ->
        exists after,
          TinyStore.delete vector (TinyStore.Refused detail) id self
          = (TinyStore.Raised detail, after)
          /\ (forall d, In d (TinyStore.docs vector after) -> TinyStore.doc_id vector d <> id)
          /\ is_Some (TinyStore.rows vector after !! id)
          /\ ~ TinyStore.same_ids vector after)
  /\ (forall detail id,
        is_Some (TinyStore.rows vector self !! id) ->
        exists after,
          TinyStore.clear vector (TinyStore.Refused detail) self
          = (TinyStore.Raised detail, after)
          /\ TinyStore.docs vector after = []
          /\ is_Some (TinyStore.rows vector after !! id)
          /\ ~ TinyStore.same_ids vector after).
Proof.
  intros Hsame. repeat split.
  - intros now id text vec source filename metadata. eexists. split; [reflexivity|].
    exact (add_same_ids self now id text vec source filename metadata Hsame).
  - intros id. eexists _, _. split; [reflexivity|]. exact (delete_same_ids self id Hsame).
  - eexists. split; [reflexivity|]. now apply empty_same_ids.
  - intros detail now id text vec source filename metadata Hnew.
    eexists. split; [reflexivity|]. cbn [TinyStore.docs TinyStore.rows].
    assert (Hin : exists d, In d (TinyStore.docs vector self
                                    ++ [{| TinyStore.doc_id := id; TinyStore.doc_text := text;
                                           TinyStore.doc_vec := vec;
                                           TinyStore.doc_source := source;
                                           TinyStore.doc_filename := filename;
                                           TinyStore.doc_created_at := now;
                                           TinyStore.doc_metadata := default [] metadata |}])
                            /\ TinyStore.doc_id vector d = id)
      by (eexists; split; [apply in_or_app; right; now left|reflexivity]).
    split; [exact Hin|]. split; [exact Hnew|].
    intros Habs. apply (Habs id) in Hin. cbn [TinyStore.rows] in Hin.
    rewrite Hnew in Hin. now destruct Hin.
  - intros detail id Hstored. eexists. split; [reflexivity|].
    cbn [TinyStore.docs TinyStore.rows].
    assert (Hgone : forall d,
               In d (List.filter (fun d => negb (String.eqb (TinyStore.doc_id vector d) id))
                       (TinyStore.docs vector self)) ->
               TinyStore.doc_id vector d <> id).
    { intros d Hin. apply filter_In in Hin as [_ Hkeep].
      now apply negb_true_iff, String.eqb_neq in Hkeep. }
    split; [exact Hgone|]. split; [exact Hstored|].
    intros Habs. apply (Habs id) in Hstored as (d & Hin & Hid).
    cbn [TinyStore.docs] in Hin. now apply (Hgone d Hin).
  - intros detail id Hstored. eexists. split; [reflexivity|].
    cbn [TinyStore.docs TinyStore.rows]. split; [reflexivity|]. split; [exact Hstored|].
    intros Habs. apply (Habs id) in Hstored as (d & Hin & _). destruct Hin.
Qed.

(** X26.  Adding under an id that is already stored replaces the row
    of the table but only appends in memory, where the older document
    stays: memory then holds at least two documents of that id, the
    table still one row, and the count [rag_add] reports is one more
    than before although no row was added. *)
Theorem add_existing_id_duplicates (self : TinyStore.t vector)
    (now fresh_id id : string) (text : TinyStore.unicode) (vec : vector)
    (source : string) (filename : option string) :
  TinyStore.same_ids vector self ->
  id <> "" ->
  is_Some (TinyStore.rows vector self !! id) ->
  exists count after,
    TinyStore.rag_add vector TinyStore.Executed now fresh_id id text vec source filename self
    = (TinyStore.Returned (id, count), after)
    /\ count = S (length (TinyStore.docs vector self))
    /\ size (TinyStore.rows vector after) = size (TinyStore.rows vector self)
    /\ 2 <= length (List.filter (fun d => String.eqb (TinyStore.doc_id vector d) id)
                      (TinyStore.docs vector after)).
Proof.
  intros Hsame Hid Hstored. unfold TinyStore.rag_add, TinyStore.add.
  destruct id as [|c id']; [contradiction|]. set (id := String c id') in *.
  eexists _, _. split; [reflexivity|].
  cbn [TinyStore.docs TinyStore.rows]. split; [|split].
  - rewrite length_app. cbn. lia.
  - now apply map_size_insert_Some.
  - apply (Hsame id) in Hstored as (d & Hin & Hd).
    rewrite List.filter_app, length_app. cbn [List.filter TinyStore.doc_id].
    rewrite String.eqb_refl. cbn [length].
    assert (Hfound : In d (List.filter (fun d => String.eqb (TinyStore.doc_id vector d) id)
                             (TinyStore.docs vector self)))
      by (apply filter_In; split; [exact Hin|now rewrite Hd, String.eqb_refl]).
    destruct (List.filter _ (TinyStore.docs vector self)); [destruct Hfound|cbn; lia].
Qed.

(** X27.  A [delete] that the database executes reports whether a
    document of that id was stored; afterwards neither memory nor the
    table holds one, and the other documents are all still there. *)
Theorem delete_removes_every_copy (self : TinyStore.t vector) (id : string) :
  TinyStore.same_ids vector self ->
  exists deleted after,
    TinyStore.delete vector TinyStore.Executed id self = (TinyStore.Returned deleted, after)
    /\ (deleted = true <-> exists d, In d (TinyStore.docs vector self)
                                     /\ TinyStore.doc_id vector d = id)
    /\ TinyStore.rows vector after !! id = None
    /\ forall d, In d (TinyStore.docs vector after)
                 <-> In d (TinyStore.docs vector self) /\ TinyStore.doc_id vector d <> id.
Proof.
  intros Hsame. unfold TinyStore.delete. eexists _, _. split; [reflexivity|].
  cbn [TinyStore.docs TinyStore.rows].
  split; [|split].
  - rewrite (Hsame id). destruct (TinyStore.rows vector self !! id) as [d|].
    + split; [eauto|reflexivity].
    + split; [discriminate|now intros [x Hx]].
  - apply lookup_delete_eq.
  - intros d. rewrite filter_In, negb_true_iff, String.eqb_neq. reflexivity.
Qed.
End TinyStoreFacts.

Lemma store_keeps_same_ids_witness :
  let stored :=
    snd (TinyStore.add nat TinyStore.Executed "2025-10-25T00:00:00" "d1"
           (TinyStore.of_ascii "deadline") 0 "manual" None None (TinyStore.mk nat [] ∅)) in
  TinyStore.same_ids nat
    (snd (TinyStore.add nat TinyStore.Executed "2025-10-26T00:00:00" "d2"
            (TinyStore.of_ascii "budget") 1 "manual" None None stored))
  /\ ~ TinyStore.same_ids nat
         (snd (TinyStore.add nat (TinyStore.Refused "NOT NULL constraint failed")
                 "2025-10-26T00:00:00" "d2" (TinyStore.of_ascii "budget") 1 "manual"
                 None None stored)).
Proof.
  intros stored.
  assert (Hstored : TinyStore.same_ids nat stored)
    by (apply add_same_ids, empty_same_ids; reflexivity).
  destruct (store_keeps_same_ids nat stored Hstored) as (Hadd & _ & _ & Hrefused & _).
  split.
  - destruct (Hadd "2025-10-26T00:00:00" "d2" (TinyStore.of_ascii "budget") 1 "manual"
                None None) as (after & -> & Hafter).
    exact Hafter.
  - destruct (Hrefused "NOT NULL constraint failed" "2025-10-26T00:00:00" "d2"
                (TinyStore.of_ascii "budget") 1 "manual" None None)
      as (after & -> & _ & _ & Hbroken).
    + vm_compute. reflexivity.
    + exact Hbroken.
Defined.

Lemma add_existing_id_duplicates_witness :
  let first :=
    snd (TinyStore.add nat TinyStore.Executed "2025-10-25T00:00:00" "d1"
           (TinyStore.of_ascii "deadline is december") 0 "manual" None None
           (TinyStore.mk nat [] ∅)) in
  let out :=
    TinyStore.rag_add nat TinyStore.Executed "2025-10-26T00:00:00" "6f1c" "d1"
      (TinyStore.of_ascii "deadline moved") 1 "manual" None first in
  fst out = TinyStore.Returned ("d1", 2)
  /\ size (TinyStore.rows nat (snd out)) = size (TinyStore.rows nat first).
Proof.
  intros first out.
  destruct (add_existing_id_duplicates nat first "2025-10-26T00:00:00" "6f1c" "d1"
              (TinyStore.of_ascii "deadline moved") 1 "manual" None)
    as (count & after & Heq & Hcount & Hsize & _).
  - apply add_same_ids, empty_same_ids. reflexivity.
  - discriminate.
  - subst first. unfold TinyStore.add. cbn [snd TinyStore.rows].
    rewrite lookup_insert_eq. eauto.
  - subst out. rewrite Heq. cbn [fst snd]. split; [now rewrite Hcount|exact Hsize].
Defined.

Lemma delete_removes_every_copy_witness :
  let stored :=
    snd (TinyStore.add nat TinyStore.Executed "2025-10-26T00:00:00" "d2"
           (TinyStore.of_ascii "budget") 1 "manual" None None
           (snd (TinyStore.add nat TinyStore.Executed "2025-10-25T00:00:00" "d1"
                   (TinyStore.of_ascii "deadline") 0 "manual" None None
                   (TinyStore.mk nat [] ∅)))) in
  let out := TinyStore.delete nat TinyStore.Executed "d1" stored in
  fst out = TinyStore.Returned true
  /\ map (TinyStore.doc_id nat) (TinyStore.docs nat (snd out)) = ["d2"]
  /\ TinyStore.rows nat (snd out) !! "d1" = None.
Proof.
  intros stored out.
  destruct (delete_removes_every_copy nat stored "d1")
    as (deleted & after & Heq & Hdeleted & Hrow & _).
  - do 2 apply add_same_ids. apply empty_same_ids. reflexivity.
  - subst out. rewrite Heq. cbn [fst snd]. split; [|split].
    + f_equal. apply Hdeleted. eexists. split; [now left|reflexivity].
    + injection Heq as _ <-. reflexivity.
    + exact Hrow.
Defined.

(** ** Previews and query parameters *)

(** X28.  A preview is the text itself when the text has at most 200
    code points, and otherwise its first 200 code points followed by
    three dots: it never has more than 203. *)
Theorem preview_is_bounded (text : TinyStore.unicode) :
  length (TinyStore.preview text) <= 203
  /\ (length text <= 200 -> TinyStore.preview text = text)
  /\ (200 < length text ->
      TinyStore.preview text = firstn 200 text ++ [46; 46; 46]%N
      /\ length (TinyStore.preview text) = 203).
Proof.
  unfold TinyStore.preview. destruct (Nat.ltb_spec 200 (length text)) as [Hlong|Hshort].
  - change (TinyStore.of_ascii "...") with [46; 46; 46]%N.
    rewrite length_app, length_firstn. cbn [length].
    split; [lia|]. split; [lia|]. intros _. split; [reflexivity|lia].
  - split; [lia|]. split; [reflexivity|lia].
Qed.

(** A text of 201 letters [é], one code point and two bytes each, is
    cut after the 200th. *)
Lemma preview_is_bounded_witness :
  TinyStore.preview (repeat 233%N 201) = repeat 233%N 200 ++ [46; 46; 46]%N.
Proof.
  destruct (preview_is_bounded (repeat 233%N 201)) as (_ & _ & Hcut).
  destruct Hcut as [-> _]; [rewrite repeat_length; lia|reflexivity].
Defined.

Lemma params_fold_other (rt : Runtime) (items : list (string * json))
    (params : list (string * json)) (key : string) :
  (forall v, ~ In (key, v) items) ->
  dict_get key
    (foldl (fun params kv => dict_set (fst kv) (JStr ("eq." +:+ fmt rt (snd kv))) params)
           params items)
  = dict_get key params.
Proof.
  revert params. induction items as [|[k v] items IH]; intros params Hnone; [reflexivity|].
  change (dict_get key
            (foldl (fun params kv => dict_set (fst kv) (JStr ("eq." +:+ fmt rt (snd kv))) params)
                   (dict_set k (JStr ("eq." +:+ fmt rt v)) params) items)
          = dict_get key params).
  rewrite IH by (intros w Hw; apply (Hnone w); now right).
  apply dict_get_set_ne. intros ->. apply (Hnone v). now left.
Qed.

(** X29.  The query parameters hold ["eq.<value>"] under the name of
    every filter, and the limit under ["limit"] unless a filter is
    itself named [limit]: such a filter takes the place of the limit. *)
Theorem supabase_filter_can_replace_limit (rt : Runtime) (limit : json)
    (items : list (string * json)) (key : string) (value : json) :
  List.NoDup (map fst items) ->
  In (key, value) items ->
  let params := Integrations.supabase_params rt limit (Some items) in
  dict_get key params = Some (JStr ("eq." +:+ fmt rt value))
  /\ ((forall v, ~ In ("limit", v) items) -> dict_get "limit" params = Some limit).
Proof.
  intros Hnodup Hin. cbv zeta. unfold Integrations.supabase_params.
  destruct items as [|item items']; [destruct Hin|]. set (items := item :: items') in *.
  split.
  - clearbody items. clear item items'. generalize [("limit", limit)].
    induction items as [|[k v] items IH]; intros params; [destruct Hin|].
    change (dict_get key
              (foldl (fun params kv => dict_set (fst kv) (JStr ("eq." +:+ fmt rt (snd kv))) params)
                     (dict_set k (JStr ("eq." +:+ fmt rt v)) params) items)
            = Some (JStr ("eq." +:+ fmt rt value))).
    cbn [map fst] in Hnodup. apply List.NoDup_cons_iff in Hnodup as [Hfresh Hnodup].
    destruct Hin as [Heq|Hin].
    + injection Heq as -> ->. rewrite params_fold_other; [apply dict_get_set_eq|].
      intros w Hw. apply Hfresh. change key with (fst (key, w)). now apply in_map.
    + now apply IH.
  - intros Hnone. rewrite params_fold_other by exact Hnone. reflexivity.
Qed.

Lemma supabase_filter_can_replace_limit_witness :
  dict_get "limit"
    (Integrations.supabase_params CPython.runtime (JNum "10")
       (Some [("status", JStr "open"); ("limit", JNum "3")]))
  = Some (JStr "eq.3").
Proof.
  apply (supabase_filter_can_replace_limit CPython.runtime (JNum "10")
           [("status", JStr "open"); ("limit", JNum "3")] "limit" (JNum "3")).
  - repeat constructor; cbn; intuition discriminate.
  - right. now left.
Defined.

(** ** The base URL of the Cloudflare worker *)

Lemma rstrip_trailing (c : ascii) (s : string) :
  Cloudflare.rstrip_char c (s +:+ String c EmptyString) = Cloudflare.rstrip_char c s.
Proof.
  induction s as [|x s IH].
  - change (EmptyString +:+ String c EmptyString) with (String c EmptyString).
    cbn [Cloudflare.rstrip_char]. now rewrite Ascii.eqb_refl.
  - rewrite append_cons. cbn [Cloudflare.rstrip_char]. now rewrite IH.
Qed.

Lemma rstrip_no_trailing (c : ascii) (s t : string) :
  Cloudflare.rstrip_char c s <> t +:+ String c EmptyString.
Proof.
  revert t. induction s as [|x s IH]; intros t; cbn [Cloudflare.rstrip_char].
  - destruct t; discriminate.
  - destruct (Cloudflare.rstrip_char c s) as [|y kept] eqn:Hkept.
    + destruct (Ascii.eqb_spec x c) as [->|Hne]; [destruct t; discriminate|].
      destruct t as [|z t]; [intros [= Hx]; contradiction|].
      rewrite append_cons. intros [= _ Habs]. destruct t; discriminate.
    + destruct t as [|z t]; [discriminate|].
      rewrite append_cons. intros [= _ Habs]. now apply (IH t).
Qed.

(** X30.  Slashes at the end of the configured endpoint make no
    difference: the base URL is the endpoint without them, it never
    ends in a slash, and the search URL is the same with or without
    them. *)
Theorem trailing_slashes_are_ignored (cfg : Cloudflare.Config) :
  let slashed :=
    {| Cloudflare.enabled := Cloudflare.enabled cfg;
       Cloudflare.endpoint := Cloudflare.endpoint cfg +:+ "/";
       Cloudflare.api_token := Cloudflare.api_token cfg;
       Cloudflare.default_model := Cloudflare.default_model cfg;
       Cloudflare.rag_top_k := Cloudflare.rag_top_k cfg |} in
  Cloudflare._base_url slashed = Cloudflare._base_url cfg
  /\ Cloudflare.search_url slashed = Cloudflare.search_url cfg
  /\ (forall t, Cloudflare._base_url cfg <> t +:+ "/")
  /\ exists n, Cloudflare.endpoint cfg
               = Cloudflare._base_url cfg +:+ string_of_list_ascii (repeat "/"%char n).
Proof.
  cbv zeta. unfold Cloudflare.search_url, Cloudflare._base_url. cbn [Cloudflare.endpoint].
  rewrite (rstrip_trailing "/"). repeat split.
  - intros t. apply rstrip_no_trailing.
  - induction (Cloudflare.endpoint cfg) as [|x s [n IH]]; [now exists 0|].
    cbn [Cloudflare.rstrip_char].
    destruct (Cloudflare.rstrip_char "/" s) as [|y kept] eqn:Hkept.
    + destruct (Ascii.eqb_spec x "/") as [->|Hne].
      * exists (S n). cbn [repeat string_of_list_ascii]. change (EmptyString +:+ ?z) with z in *.
        now rewrite IH.
      * exists n. rewrite append_cons. change (EmptyString +:+ ?z) with z in *. now rewrite IH.
    + exists n. rewrite append_cons. now rewrite <- IH.
Qed.
